(** * pylaunchd: the service-listing pipeline of [pylaunchd_gui.py]

    A shallow embedding of the part of [pylaunchd_gui.py] that lists launchd
    jobs, caches their detail text, and filters and sorts the table:

    - [MainWindow.load_data_launchctl]  (queries [launchctl print], parses)
    - [MainWindow.__init__], with the first sort of the table that
      [CustomTableView.configureTableView] sets off, and
      [MainWindow.initialize_data]
    - [MainWindow.on_search_changed]    (the search box)
    - [CustomTableModel.sort]           (a click on a column header)
    - [MainWindow.run_job_action], [on_show_in_finder], [onListItemSelect],
      [on_open_linked_file], [start_file], [show_gui_error]
    - [CustomTableModel.data], [MainWindow.read_settings] and
      [write_settings]

    Text is a [string]: a sequence of characters with code points below 256.
    On these the functions of [PyStr] and [Re] follow Python's [str] methods
    and the [re] module.

    The subprocess run by [MainWindow.exec] is a function from the argument
    vector to the decoded standard output: the tool answers a query the
    same way throughout one load, while two loads may see different tools.
    The load is modelled twice: on an [Exec], a tool that always starts and
    whose output always decodes, and on a [Tool], whose queries can fail
    the way [exec] lets [subprocess.Popen] and [decode] fail.  What the
    tool writes on its error stream only opens a message box; that, the Qt
    signals and the status bar are not modelled. *)

From Stdlib Require Import ZArith Ascii String List Bool Lia Sorted.
From stdpp Require Import base option list gmap strings pretty.
From stdpp Require Import sorting.
From Equations Require Import Equations.

Local Open Scope Z_scope.

(** ** Python values used by the source *)

(** Exceptions the modelled code can raise. *)
Inductive exn : Type :=
| IndexError.

Inductive result (A : Type) : Type :=
| Ok (a : A)
| Raise (e : exn).
Arguments Ok {A} a.
Arguments Raise {A} e.

(** [l[i]] on a Python list: negative indices count from the end, anything
    outside [-len, len) raises [IndexError]. *)
Definition py_index {A : Type} (l : list A) (i : Z) : result A :=
  let n := Z.of_nat (length l) in
  let j := if i <? 0 then n + i else i in
  if (0 <=? j) && (j <? n) then
    match l !! Z.to_nat j with
    | Some x => Ok x
    | None => Raise IndexError
    end
  else Raise IndexError.

(** ** [str] methods *)

Module PyStr.

Definition LF : ascii := "010"%char.
Definition CR : ascii := "013"%char.

(** Truth value of a string: empty is false. *)
Definition truthy (s : string) : bool :=
  match s with
  | EmptyString => false
  | String _ _ => true
  end.

(** [c.lower()] for a code point below 256: the ASCII capitals and the
    Latin-1 capitals (0xC0..0xDE except the multiplication sign 0xD7). *)
Definition lower_char (c : ascii) : ascii :=
  let n := N_of_ascii c in
  if ((65 <=? n) && (n <=? 90)
      || (192 <=? n) && (n <=? 222) && negb (n =? 215))%N
  then ascii_of_N (n + 32)
  else c.

Fixpoint lower (s : string) : string :=
  match s with
  | EmptyString => EmptyString
  | String c s' => String (lower_char c) (lower s')
  end.

(** [c.isspace()], also the class [\s] of [re] on [str] patterns. *)
Definition isspace (c : ascii) : bool :=
  let n := N_of_ascii c in
  ((9 <=? n) && (n <=? 13) || (28 <=? n) && (n <=? 32)
   || (n =? 133) || (n =? 160))%N.

(** The line boundaries of [str.splitlines]. *)
Definition is_linebreak (c : ascii) : bool :=
  let n := N_of_ascii c in
  ((10 <=? n) && (n <=? 13) || (28 <=? n) && (n <=? 30) || (n =? 133))%N.

(** [s.startswith(p)]. *)
Fixpoint startswith (p s : string) : bool :=
  match p, s with
  | EmptyString, _ => true
  | String a p', String b s' => if Ascii.eqb a b then startswith p' s' else false
  | String _ _, EmptyString => false
  end.

(** The rest of [s] after the prefix [p], when [s] starts with [p]. *)
Fixpoint strip_prefix (p s : string) : option string :=
  match p, s with
  | EmptyString, _ => Some s
  | String a p', String b s' => if Ascii.eqb a b then strip_prefix p' s' else None
  | String _ _, EmptyString => None
  end.

(** [t in s]: [t] occurs in [s] as a substring. *)
Fixpoint contains (t s : string) : bool :=
  startswith t s ||
  match s with
  | EmptyString => false
  | String _ s' => contains t s'
  end.

(** The text before and after the first occurrence of [sep] in [s]
    (what [s.partition(sep)] returns when [sep] is found). *)
Fixpoint cut (sep s : string) : option (string * string) :=
  match strip_prefix sep s with
  | Some rest => Some (EmptyString, rest)
  | None =>
      match s with
      | EmptyString => None
      | String c s' =>
          match cut sep s' with
          | Some (a, b) => Some (String c a, b)
          | None => None
          end
      end
  end.

Lemma strip_prefix_length p s r :
  strip_prefix p s = Some r ->
  String.length s = (String.length p + String.length r)%nat.
Proof.
  revert s; induction p as [|a p IH]; intros [|b s]; simpl; intros H;
    try discriminate; try (injection H as <-; reflexivity).
  destruct (Ascii.eqb a b); [|discriminate].
  rewrite (IH _ H); reflexivity.
Qed.

Lemma cut_length sep s a b :
  cut sep s = Some (a, b) ->
  String.length s = (String.length a + String.length sep + String.length b)%nat.
Proof.
  revert a b; induction s as [|c s IH]; intros a b; simpl.
  - destruct (strip_prefix sep "") eqn:E; [|discriminate].
    intros [= <- <-]. apply strip_prefix_length in E. simpl in *. lia.
  - destruct (strip_prefix sep (String c s)) eqn:E.
    + intros [= <- <-]. apply strip_prefix_length in E. simpl in *. lia.
    + destruct (cut sep s) as [[a' b']|] eqn:E'; [|discriminate].
      intros [= <- <-]. specialize (IH _ _ eq_refl). simpl. lia.
Qed.

(** [s.split(sep)] for a separator given explicitly: the pieces between
    the occurrences of [sep], found left to right without overlap.  Python
    raises [ValueError] for an empty separator; every separator in the
    source is a non-empty literal, and the model returns no piece there. *)
Equations? split (sep s : string) : list string by wf (String.length s) lt :=
  split EmptyString s := [];
  split (String c sep') s with Logic.inspect (cut (String c sep') s) := {
    | exist _ None _ := [s];
    | exist _ (Some (a, b)) H := a :: split (String c sep') b }.
Proof. apply cut_length in H. simpl in H. lia. Qed.

(** [s.splitlines()]: the lines of [s] without their terminators; a
    carriage return followed by a line feed ends one line, and a final
    terminator opens no empty last line. *)
Fixpoint splitlines (s : string) : list string :=
  match s with
  | EmptyString => []
  | String c s' =>
      if is_linebreak c then
        match s' with
        | String d s'' =>
            if Ascii.eqb c CR && Ascii.eqb d LF
            then EmptyString :: splitlines s''
            else EmptyString :: splitlines s'
        | EmptyString => [EmptyString]
        end
      else
        match splitlines s' with
        | [] => [String c EmptyString]
        | l :: ls => String c l :: ls
        end
  end.

End PyStr.

(** ** The two patterns of [re.findall] *)

Module Re.
Import PyStr.

(** [\s+] followed by the rest of the pattern, given as the continuation
    [k].  The quantifier is greedy: after a white-space character the
    engine first tries to take more of them and only then runs [k] on the
    text right after this one. *)
Fixpoint spaces1 {A : Type} (k : string -> option A) (s : string) : option A :=
  match s with
  | String c s' =>
      if isspace c then
        match spaces1 k s' with
        | Some r => Some r
        | None => k s'
        end
      else None
  | EmptyString => None
  end.

(** [(.*$)]: the dot matches everything but a line feed, so the greedy
    star stops at the next line feed or at the end of the text, where [$]
    holds under [re.MULTILINE].  Returns the group and the unread text. *)
Fixpoint dotstar (s : string) : string * string :=
  match s with
  | String c s' =>
      if Ascii.eqb c LF then (EmptyString, s)
      else let '(g, r) := dotstar s' in (String c g, r)
  | EmptyString => (EmptyString, EmptyString)
  end.

(** [<key>\s(.*$)].  Besides the group and the unread text, tells whether
    the last character read was a line feed, that is whether [^] holds
    where the next search starts. *)
Definition key_value (key s : string) : option (string * bool * string) :=
  match strip_prefix key s with
  | Some (String c s') =>
      if isspace c then
        let '(g, r) := dotstar s' in
        Some (g, negb (truthy g) && Ascii.eqb c LF, r)
      else None
  | _ => None
  end.

(** One attempt of [\s+<key>\s(.*$)] at the start of [s]. *)
Definition match_here (key s : string) : option (string * bool * string) :=
  spaces1 (key_value key) s.

Lemma spaces1_shorter {A : Type} (k : string -> option A) s x :
  spaces1 k s = Some x ->
  exists s1, k s1 = Some x /\ (String.length s1 < String.length s)%nat.
Proof.
  induction s as [|c s IH]; simpl; [discriminate|].
  destruct (isspace c); [|discriminate].
  destruct (spaces1 k s) as [y|] eqn:E.
  - intros [= ->]. destruct (IH eq_refl) as (s1 & H1 & H2).
    exists s1. split; [assumption | lia].
  - intros H. exists s. split; [assumption | lia].
Qed.

Lemma dotstar_shorter s g r :
  dotstar s = (g, r) -> (String.length r <= String.length s)%nat.
Proof.
  revert g r; induction s as [|c s IH]; simpl; intros g r.
  - intros [= <- <-]. simpl. lia.
  - destruct (Ascii.eqb c LF).
    + intros [= <- <-]. simpl. lia.
    + destruct (dotstar s) as [g' r'] eqn:E. intros [= <- <-].
      specialize (IH _ _ eq_refl). lia.
Qed.

Lemma match_here_shorter key s g b r :
  match_here key s = Some (g, b, r) ->
  (String.length r < String.length s)%nat.
Proof.
  intros H. apply spaces1_shorter in H as (s1 & H1 & H2).
  unfold key_value in H1.
  destruct (strip_prefix key s1) as [[|c s2]|] eqn:E; try discriminate.
  destruct (isspace c); [|discriminate].
  destruct (dotstar s2) as [g' r'] eqn:E2. injection H1 as <- <- <-.
  apply strip_prefix_length in E. apply dotstar_shorter in E2.
  simpl in E. lia.
Qed.

(** The scan of [re.findall('^\s+<key>\s(.*$)', s, re.MULTILINE)]: [bol]
    says whether [^] holds at the start of [s] (start of the text, or
    right after a line feed).  After a match the search goes on behind it;
    otherwise it moves one character on. *)
Equations? findall_from (key : string) (bol : bool) (s : string)
  : list string by wf (String.length s) lt :=
  findall_from key bol EmptyString := [];
  findall_from key false (String c s') :=
    findall_from key (Ascii.eqb c LF) s';
  findall_from key true (String c s')
    with Logic.inspect (match_here key (String c s')) := {
    | exist _ (Some (g, b, r)) H := g :: findall_from key b r;
    | exist _ None _ := findall_from key (Ascii.eqb c LF) s' }.
Proof. apply match_here_shorter in H. simpl in H. lia. Qed.

Definition findall (key text : string) : list string :=
  findall_from key true text.

End Re.

(** ** State and exceptions

    A computation over a state [S] that returns a value or raises; the
    state reached when the exception is raised is kept, as in Python. *)

Definition M (S A : Type) : Type := S -> result A * S.

#[global] Instance M_ret {S : Type} : MRet (M S) :=
  fun A a s => (Ok a, s).

#[global] Instance M_bind {S : Type} : MBind (M S) :=
  fun A B f m s =>
    match m s with
    | (Ok a, s') => f a s'
    | (Raise e, s') => (Raise e, s')
    end.

#[global] Instance result_ret : MRet result :=
  fun A a => Ok a.

#[global] Instance result_bind : MBind result :=
  fun A B f r =>
    match r with
    | Ok a => f a
    | Raise e => Raise e
    end.

Definition of_result {S A : Type} (r : result A) : M S A :=
  fun s => (r, s).

Definition gets {S A : Type} (f : S -> A) : M S A :=
  fun s => (Ok (f s), s).

Definition modify {S : Type} (f : S -> S) : M S unit :=
  fun s => (Ok tt, f s).

(** [try: body / except Exception as e: handler e]. *)
Definition try_except {S A : Type} (body : M S A) (handler : exn -> M S A)
  : M S A :=
  fun s =>
    match body s with
    | (Ok a, s') => (Ok a, s')
    | (Raise e, s') => handler e s'
    end.

(** [for x in xs: acc = body acc x], the loop variable [acc] standing for
    the local variables the body updates. *)
Fixpoint for_each {S A B : Type} (xs : list A) (body : B -> A -> M S B)
  (acc : B) : M S B :=
  match xs with
  | [] => mret acc
  | x :: xs' => acc' ← body acc x; for_each xs' body acc'
  end.

(** ** Job records and the built-in [sorted] *)

(** A row of the table: the source builds it as the three-element list
    [[label, path, state]]. *)
Record Job : Type := mkJob {
  label : string;
  path : string;
  state : string;
}.

#[global] Instance Job_eq_dec : EqDecision Job.
Proof. solve_decision. Defined.

Module Py.

(** [operator.itemgetter(ncol)] applied to a row. *)
Definition itemgetter (ncol : Z) (d : Job) : result string :=
  py_index [label d; path d; state d] ncol.

(** The keys are computed once, in list order, before any comparison. *)
Fixpoint decorate {A : Type} (key : A -> result string) (l : list A)
  : result (list (string * A)) :=
  match l with
  | [] => Ok []
  | x :: l' =>
      match key x with
      | Raise e => Raise e
      | Ok k =>
          match decorate key l' with
          | Raise e => Raise e
          | Ok kl => Ok ((k, x) :: kl)
          end
      end
  end.

(** Stable insertion into a list sorted by key: the new element goes in
    front of the first element whose key is not smaller. *)
Fixpoint insert {A : Type} (x : string * A) (l : list (string * A))
  : list (string * A) :=
  match l with
  | [] => [x]
  | y :: l' =>
      if String.leb (fst x) (fst y) then x :: y :: l'
      else y :: insert x l'
  end.

(** The stable sort of [list.sort]: keys compared as [str], that is
    lexicographically by code point. *)
Definition stable_sort {A : Type} (l : list (string * A))
  : list (string * A) :=
  foldr insert [] l.

(** [sorted(l, key=key, reverse=reverse)].  For [reverse] the list is
    reversed, sorted and reversed again, which keeps equal keys in their
    original order. *)
Definition sorted {A : Type} (key : A -> result string) (reverse : bool)
  (l : list A) : result (list A) :=
  match decorate key l with
  | Raise e => Raise e
  | Ok kl =>
      Ok (snd <$> (if reverse then rev (stable_sort (rev kl))
                   else stable_sort kl))
  end.

End Py.

(** ** [MainWindow.load_data_launchctl] *)

Definition LAUNCHD_DOMAINS : list string := ["User"; "System"; "GUI"].
Definition DEFAULT_DOMAIN : string := "GUI".

Definition TAB : ascii := "009"%char.

(** ['services = {\n'] and ['\t}']. *)
Definition SERVICES_OPEN : string := "services = {" +:+ String PyStr.LF "".
Definition SERVICES_CLOSE : string := String TAB "}".

(** The control tool as [MainWindow.exec] sees it when every query
    succeeds: the decoded standard output for an argument vector.  The
    exceptions [exec] lets out of [subprocess.Popen] and [decode] are not
    in this type; they are in [Tool] below, and what is proved of a load
    on an [Exec] holds of the program for the loads in which no query
    fails. *)
Definition Exec : Type := list string -> string.

(** [len(xs) and xs[0] or dflt] for a list of strings: the first element
    when there is one and it is not empty. *)
Definition first_or {A : Type} (xs : list string) (some : string -> A)
  (dflt : A) : A :=
  match xs with
  | x :: _ => if PyStr.truthy x then some x else dflt
  | [] => dflt
  end.

Section Load.
Variable exec : Exec.
Variable uid : N.

(** [['launchctl', 'print', f'{target}/{label}']], with [target] the
    string [f'{domain}{user_identifier}']. *)
Definition print_job (target lbl : string) : list string :=
  ["launchctl"; "print"; target +:+ "/" +:+ lbl].

(** The body of the loop over the lines of the services block; [data] is
    the local list, the state is [self.jobs]. *)
Definition load_line (target : string) (data : list Job) (line : string)
  : M (gmap string string) (list Job) :=
  lbl ← of_result (py_index (PyStr.split (String TAB "") line) (-1));
  if PyStr.truthy lbl then
    let details := exec (print_job target lbl) in
    modify (<[lbl := details]>);;
    let paths := Re.findall "path =" details in
    match first_or paths Some None with
    | Some p =>
        if PyStr.startswith "/" p then
          let states := Re.findall "state =" details in
          let st := first_or states id "" in
          mret (data ++ [mkJob lbl p st])
        else mret data
    | None => mret data
    end
  else mret data.

(** [f'{domain}{user_identifier}'] for the entry [name] of
    [LAUNCHD_DOMAINS]. *)
Definition target_of (name : string) : string :=
  let domain :=
    if PyStr.truthy (PyStr.lower name) then PyStr.lower name
    else DEFAULT_DOMAIN in
  let user_identifier :=
    if String.eqb domain "system" then "" else "/" +:+ pretty uid in
  domain +:+ user_identifier.

(** [gui_processes.split('services = {\n')[1].split('\t}')[0]]. *)
Definition services_block (gui_processes : string) : result string :=
  rest ← py_index (PyStr.split SERVICES_OPEN gui_processes) 1;
  py_index (PyStr.split SERVICES_CLOSE rest) 0.

Definition load_data_launchctl (domain_id : Z)
  : M (gmap string string) (list Job) :=
  name ← of_result (py_index LAUNCHD_DOMAINS domain_id);
  let target := target_of name in
  let gui_processes := exec ["launchctl"; "print"; target] in
  services ← of_result (services_block gui_processes);
  for_each (PyStr.splitlines services) (load_line target) [].

End Load.

(** ** The window

    [self.data], [self.data_all] and the table model's [arraydata] are
    references to Python list objects, which the handlers update in place
    by slice assignment.  [lists] holds the list objects. *)

(** References are numbers. *)
Abbreviation loc := nat (only parsing).

Record MainWindow : Type := mkWindow {
  jobs : gmap string string;      (* self.jobs *)
  lists : gmap nat (list Job);    (* the list objects *)
  data : loc;                     (* self.data *)
  data_all : loc;                 (* self.data_all *)
  arraydata : loc;                (* self.tableView.tableModel.arraydata *)
}.

(** A new list object holding [v]. *)
Definition alloc (v : list Job) (h : gmap nat (list Job))
  : loc * gmap nat (list Job) :=
  let l := fresh (dom h) in (l, <[l := v]> h).

(** The elements of the list object at [l]. *)
Definition deref (h : gmap nat (list Job)) (l : loc) : list Job :=
  default [] (h !! l).

Definition read_list (ref : MainWindow -> loc) : M MainWindow (list Job) :=
  gets (fun w => deref (lists w) (ref w)).

(** [ref[:] = v]: the list object keeps its identity and gets the
    elements of [v]. *)
Definition slice_assign (ref : MainWindow -> loc) (v : list Job)
  : M MainWindow unit :=
  modify (fun w =>
    mkWindow (jobs w) (<[ref w := v]> (lists w))
             (data w) (data_all w) (arraydata w)).

(** A method of the window that only touches [self.jobs]. *)
Definition on_jobs {A : Type} (m : M (gmap string string) A)
  : M MainWindow A :=
  fun w =>
    let '(r, j) := m (jobs w) in
    (r, mkWindow j (lists w) (data w) (data_all w) (arraydata w)).

(** [MainWindow.__init__] up to the return of [createDockWindows]:
    [self.jobs = {}], [self.data] is the list returned by the first load,
    [self.data_all] a new list filled from it, and [createDockWindows]
    hands [self.data] itself to [CustomTableModel], which stores it as
    [arraydata].  An exception of the load leaves no window.  The first
    sort of the table, which [configureTableView] sets off at the end of
    [__init__], is not part of it: see [MainWindow_start]. *)
Definition MainWindow_init (exec : Exec) (uid : N) (domain_id : Z)
  : result MainWindow :=
  match load_data_launchctl exec uid domain_id ∅ with
  | (Raise e, _) => Raise e
  | (Ok d, j) =>
      let '(l_data, h1) := alloc d ∅ in
      let '(l_all, h2) := alloc [] h1 in
      let h3 := <[l_all := deref h2 l_data]> h2 in
      Ok (mkWindow j h3 l_data l_all l_data)
  end.

(** [MainWindow.initialize_data]: called on a change of domain and on
    refresh; any exception is printed and dropped. *)
Definition initialize_data (exec : Exec) (uid : N) (idx : Z)
  : M MainWindow unit :=
  try_except
    (d ← on_jobs (load_data_launchctl exec uid idx);
     slice_assign data d;;
     v ← read_list data;
     slice_assign data_all v)
    (fun _ => mret tt).

(** The test of the list comprehension in [on_search_changed]. *)
Definition filter_match (text : string) (d : Job) : bool :=
  PyStr.contains (PyStr.lower text) (PyStr.lower (label d))
  || PyStr.contains text (PyStr.lower (path d)).

(** [MainWindow.on_search_changed]. *)
Definition on_search_changed (text : string) : M MainWindow unit :=
  try_except
    (filtered_data ←
       (if PyStr.truthy text then
          all ← read_list data_all;
          mret (List.filter (filter_match text) all)
        else read_list data_all);
     slice_assign data filtered_data)
    (fun _ => mret tt).

(** [Qt.SortOrder]; [sort] passes it as [reverse], where it counts as the
    integer it is. *)
Inductive SortOrder : Type :=
| AscendingOrder
| DescendingOrder.

Definition SortOrder_value (o : SortOrder) : Z :=
  match o with
  | AscendingOrder => 0
  | DescendingOrder => 1
  end.

Module CustomTableModel.

(** [CustomTableModel.sort]. *)
Definition sort (ncol : Z) (order : SortOrder) : M MainWindow unit :=
  rows ← read_list arraydata;
  sorted_data ← of_result
    (Py.sorted (Py.itemgetter ncol) (negb (SortOrder_value order =? 0)) rows);
  slice_assign arraydata sorted_data.

End CustomTableModel.

(** What the user does to the table, and the handler of each action.  An
    exception that leaves a handler does not undo what the handler did. *)
Inductive view_event : Type :=
| SetFilter (text : string)
| SetSort (ncol : Z) (order : SortOrder).

Definition handle (e : view_event) : M MainWindow unit :=
  match e with
  | SetFilter text => on_search_changed text
  | SetSort ncol order => CustomTableModel.sort ncol order
  end.

Definition run_events (es : list view_event) (w : MainWindow) : MainWindow :=
  foldl (fun w e => snd (handle e w)) w es.

(** ** Notions used in the statements *)

(** The rows the table shows, and the full set of the last load. *)
Definition view (w : MainWindow) : list Job := deref (lists w) (arraydata w).
Definition snapshot (w : MainWindow) : list Job := deref (lists w) (data_all w).

(** The aliasing [MainWindow.__init__] sets up: the table model shows the
    list object [self.data], and [self.data_all] is another object. *)
Definition window_ok (w : MainWindow) : Prop :=
  arraydata w = data w /\ data w <> data_all w.

(** [t] occurs in [s]. *)
Definition substring (t s : string) : Prop :=
  exists pre post, s = pre +:+ t +:+ post.

(** The labels of a services block: the last tab-separated field of each
    line, when it is not empty. *)
Definition listed_labels (services : string) : list string :=
  List.filter PyStr.truthy
    ((fun line => default "" (last (PyStr.split (String TAB "") line)))
       <$> PyStr.splitlines services).

(** The first [state =] value of a detail text, or no text. *)
Definition state_of (details : string) : string :=
  match Re.findall "state =" details with
  | s :: _ => s
  | [] => ""
  end.

(** The row a detail text gives for a label: the first [path =] value when
    it starts with a slash, with the first [state =] value or no text. *)
Definition parse_details (lbl details : string) : option Job :=
  match Re.findall "path =" details with
  | p :: _ =>
      if PyStr.startswith "/" p then Some (mkJob lbl p (state_of details))
      else None
  | [] => None
  end.

(** The filter as the specification words it: the label is searched
    ignoring case, the path as it is written. *)
Definition spec_filter_match (text : string) (d : Job) : bool :=
  PyStr.contains (PyStr.lower text) (PyStr.lower (label d))
  || PyStr.contains text (path d).

(** The detail text the tool returns for a label. *)
Definition details_of (exec : Exec) (target lbl : string) : string :=
  exec (print_job target lbl).

(** The cache after the detail texts of [lbls] were stored in turn. *)
Definition cache_after (exec : Exec) (target : string) (lbls : list string)
  (j : gmap string string) : gmap string string :=
  foldl (fun j lbl => <[lbl := details_of exec target lbl]> j) j lbls.

(** The rows of the labels [lbls], in their order. *)
Definition rows_of (exec : Exec) (target : string) (lbls : list string)
  : list Job :=
  omap (fun lbl => parse_details lbl (details_of exec target lbl)) lbls.

(** Keys in ascending order, neighbour by neighbour. *)
Definition key_le {A : Type} (x y : string * A) : Prop :=
  String.leb (fst x) (fst y) = true.

(** The elements whose key is [v], in list order. *)
Definition with_key {A : Type} (v : string) (l : list (string * A))
  : list (string * A) :=
  List.filter (fun x => String.eqb (fst x) v) l.

(** The order [sorted] puts the decorated rows in. *)
Definition arrange {A : Type} (reverse : bool) (l : list (string * A))
  : list (string * A) :=
  if reverse then rev (Py.stable_sort (rev l)) else Py.stable_sort l.

(** A row decorated with the value of a total key function. *)
Definition keyed {A : Type} (key : A -> string) (a : A) : string * A :=
  (key a, a).

(** The value [sort] compares for a row: the entry [ncol] of the row, for
    the indices Python accepts on three elements. *)
Definition column (ncol : Z) (d : Job) : string :=
  match Py.itemgetter ncol d with
  | Ok v => v
  | Raise _ => ""
  end.

(** The rows whose entry [ncol] is [v], in list order. *)
Definition rows_with (ncol : Z) (v : string) (rows : list Job) : list Job :=
  List.filter (fun d => String.eqb (column ncol d) v) rows.

(** ** Canned tools

    A tool that lists the labels of [js] for the target [target] and
    answers the query for each label with the text paired with it. *)

Definition nl : string := String PyStr.LF "".

Definition listing_of (lbls : list string) : string :=
  "services = {" +:+ nl
  +:+ foldr (fun lbl acc =>
               String TAB "1" +:+ String TAB "-" +:+ String TAB lbl +:+ nl +:+ acc)
            "" lbls
  +:+ String TAB "}" +:+ nl.

Definition canned (target : string) (js : list (string * string)) : Exec :=
  fun args =>
    match args with
    | [_; _; t] =>
        if String.eqb t target then listing_of (fst <$> js)
        else
          default ""
            (snd <$> List.find (fun j => String.eqb t (target +:+ "/" +:+ fst j)) js)
    | _ => ""
    end.

Definition detail_text (p st : string) : string :=
  String TAB "path = " +:+ p +:+ nl +:+ String TAB "state = " +:+ st +:+ nl.

(** A tool whose output never has the services block. *)
Definition silent : Exec := fun _ => "".

Definition one : Job :=
  mkJob "com.a.one" "/Library/LaunchAgents/com.a.one.plist" "running".

Definition tool_one : Exec :=
  canned "gui/501"
    [("com.a.one", detail_text "/Library/LaunchAgents/com.a.one.plist" "running")].

Definition tool_two : Exec :=
  canned "gui/501"
    [("com.b.two", detail_text "/Library/LaunchAgents/com.b.two.plist" "running")].

Definition tool_three : Exec :=
  canned "gui/501"
    [("com.c.web", detail_text "/System/c.plist" "running");
     ("com.a.one", detail_text "/Library/a.plist" "running");
     ("com.b.rel", detail_text "Library/b.plist" "running");
     ("com.d.off", detail_text "/Library/d.plist" "not running")].

(** The listing and the detail text of the one-job scenario. *)
Definition scenario_listing : string :=
  "services = {" +:+ nl
  +:+ String TAB "1" +:+ String TAB "-" +:+ String TAB "com.a.one" +:+ nl
  +:+ String TAB "}" +:+ nl.

Definition scenario_detail : string :=
  String TAB "path = /Library/LaunchAgents/com.a.one.plist" +:+ nl
  +:+ String TAB "state = running" +:+ nl.

Definition rows_three : list Job :=
  [mkJob "com.c.web" "/System/c.plist" "running";
   mkJob "com.a.one" "/Library/a.plist" "running";
   mkJob "com.d.off" "/Library/d.plist" "not running"].

(** The windows [MainWindow_init] gives for [tool_one] and [tool_three]:
    the rows are in listing order, as they are before the table is first
    sorted. *)
Definition window_one : MainWindow :=
  mkWindow (snd (load_data_launchctl tool_one 501 2 ∅))
    (<[1%nat := [one]]> (<[0%nat := [one]]> ∅)) 0%nat 1%nat 0%nat.

Definition window_three : MainWindow :=
  mkWindow (snd (load_data_launchctl tool_three 501 2 ∅))
    (<[1%nat := rows_three]> (<[0%nat := rows_three]> ∅)) 0%nat 1%nat 0%nat.

(** ** Handlers that read the window *)

(** [s.split()] without a separator: the maximal runs of characters that
    are not white space. *)
Fixpoint str_split (s : string) : list string :=
  match s with
  | EmptyString => []
  | String c s' =>
      if PyStr.isspace c then str_split s'
      else
        match s' with
        | EmptyString => [String c EmptyString]
        | String d _ =>
            if PyStr.isspace d then String c EmptyString :: str_split s'
            else
              match str_split s' with
              | w :: ws => String c w :: ws
              | [] => [String c EmptyString]
              end
        end
  end.

(** [show_gui_error]: the text of the warning box, which is
    [msg + error_text and ('\n\n' + error_text) or ''].  The sum binds
    tighter than [and]. *)
Definition show_gui_error (msg error_text : string) : string :=
  let shown :=
    if PyStr.truthy (msg +:+ error_text) then nl +:+ nl +:+ error_text
    else msg +:+ error_text in
  if PyStr.truthy shown then shown else "".

(** What a handler does besides changing the window: it hands a command
    to [exec], or opens a warning box. *)
Inductive outcome : Type :=
| Ran (argv : list string)
| Warned (text : string).

(** [MainWindow.run_job_action]; [selected_indexes] are the rows of the
    selection. *)
Definition run_job_action (args : list string) (selected_indexes : list Z)
  (w : MainWindow) : result outcome :=
  match selected_indexes with
  | idx :: _ =>
      row ← py_index (deref (lists w) (data w)) idx;
      Ok (Ran (args ++ [label row]))
  | [] => Ok (Warned (show_gui_error "Please select a job first!" ""))
  end.


(** [MainWindow.onListItemSelect]: the text put in the detail pane and the
    status message.  [self.jobs.get] gives [None] for a label without
    entry, which the f-string prints as [None]. *)
Definition detail_pane (job_details : option string) : string :=
  nl +:+ "<pre>" +:+ nl +:+ default "None" job_details +:+ nl
  +:+ "</pre>" +:+ nl.

Definition onListItemSelect (rowIndex : Z) (w : MainWindow)
  : result (string * string) :=
  row_data ← py_index (deref (lists w) (data w)) rowIndex;
  let job_details := jobs w !! label row_data in
  Ok (detail_pane job_details, path row_data).

(** [MainWindow.start_file]: the editor setting after the call and the
    command handed to [exec]. *)
Definition start_file (editor filepath : string) : string * list string :=
  let editor := if PyStr.truthy editor then editor else "system" in
  (editor,
   if String.eqb editor "system" then ["open"; filepath]
   else if PyStr.startswith "/" editor then [editor; filepath]
   else if PyStr.contains "-" editor then str_split editor ++ [filepath]
   else ["open"; "-a"; editor; filepath]).

(** [MainWindow.on_open_linked_file]: [file_exists] stands for
    [Path(p).exists()], [row_index] is absent when the handler is called
    without a row.  Returns the editor setting and what was done. *)
Definition on_open_linked_file (file_exists : string -> bool) (editor : string)
  (row_index : option Z) (selected_indexes : list Z) (w : MainWindow)
  : result (string * outcome) :=
  let given :=
    match row_index with
    | Some i => if i =? 0 then None else Some i
    | None => None
    end in
  let chosen :=
    match given with
    | Some i => Some i
    | None =>
        match selected_indexes with
        | i :: _ => Some i
        | [] => None
        end
    end in
  match chosen with
  | None =>
      Ok (editor,
          Warned (show_gui_error "No message selected"
                    "Please select a message first!"))
  | Some i =>
      row ← py_index (deref (lists w) (data w)) i;
      let plist_path := path row in
      if PyStr.truthy plist_path && file_exists plist_path then
        let '(editor', argv) := start_file editor plist_path in
        Ok (editor', Ran argv)
      else
        row' ← py_index (deref (lists w) (data w)) i;
        Ok (editor,
            Warned (show_gui_error ""
                      ("There is no associated plist file for job "
                       +:+ label row' +:+ " " +:+ nl
                       +:+ "or invalid path [" +:+ plist_path +:+ "]")))
  end.

(** ** [CustomTableModel.data] *)

(** The values of [Qt.ItemDataRole] the method names. *)
Definition DisplayRole : Z := 0.
Definition DecorationRole : Z := 1.
Definition TextAlignmentRole : Z := 7.

(** What [data] returns: an empty [QVariant], [None], a text of the
    table, or [Qt.AlignLeft]. *)
Inductive variant : Type :=
| QVariant_empty
| PyNone
| Text (s : string)
| AlignLeft.

(** [self.arraydata[row][column]]. *)
Definition cell (row column : Z) (w : MainWindow) : result string :=
  d ← py_index (deref (lists w) (arraydata w)) row;
  py_index [label d; path d; state d] column.

(** [CustomTableModel.data] for an index that is valid or not, with its
    row and column. *)
Definition model_data (valid : bool) (row column role : Z) (w : MainWindow)
  : result variant :=
  if negb valid then Ok QVariant_empty
  else if negb (role =? DisplayRole) then Ok QVariant_empty
  else if role =? TextAlignmentRole then Ok AlignLeft
  else if valid && (role =? DecorationRole) then
    match cell row column w with
    | Raise IndexError => Ok PyNone
    | Ok _ => v ← cell row column w; Ok (Text v)
    end
  else if valid && (role =? DisplayRole) then
    match cell row column w with
    | Raise IndexError => Ok PyNone
    | Ok value => Ok (Text value)
    end
  else v ← cell row column w; Ok (Text v).

(** ** The windows a session can reach *)




(** Every character of [s] passes the test [P]. *)
Fixpoint all_chars (P : ascii -> bool) (s : string) : bool :=
  match s with
  | EmptyString => true
  | String c s' => P c && all_chars P s'
  end.

Definition single_line (s : string) : bool :=
  all_chars (fun c => negb (Ascii.eqb c PyStr.LF)) s.

(** A label is not empty and has no tab and no line boundary. *)
Definition label_ok (l : string) : bool :=
  PyStr.truthy l
  && all_chars (fun c => negb (PyStr.is_linebreak c) && negb (Ascii.eqb c TAB)) l.

Definition row_ok (r : Job) : Prop :=
  label_ok (label r) = true
  /\ PyStr.startswith "/" (path r) = true
  /\ single_line (path r) = true
  /\ single_line (state r) = true.

(** The cache explains the snapshot: each row is what its label's cached
    detail text gives. *)
Definition cache_sound (w : MainWindow) : Prop :=
  forall r, r ∈ snapshot w ->
    exists d, jobs w !! label r = Some d /\ parse_details (label r) d = Some r.

(** ** Settings

    The settings file as [QSettings] shows it: a value for some keys.  A
    read with [type=int], [type=bool] or [type=str] converts the stored
    value; the conversions are taken as given, and only what they do to a
    value of the requested type is ever used. *)

Inductive qvalue : Type :=
| QInt (z : Z)
| QBool (b : bool)
| QStr (s : string)
| QGeometry (x y : Z).

Record conversions : Type := mkConversions {
  to_int : qvalue -> Z;
  to_bool : qvalue -> bool;
  to_str : qvalue -> string;
}.

Definition DEFAULT_EDITOR : string := "system".

(** The attributes [read_settings] sets and [write_settings] saves. *)
Record Prefs : Type := mkPrefs {
  last_saved_sort_column : option Z;
  last_saved_sort_order : option Z;
  domain_id : Z;
  is_toolbar_hidden : bool;
  editor : string;
}.

(** [settings.contains(key) and settings.value(key, type=...) or dflt]:
    the stored value when the key is there and the value counts as true. *)
Definition contains_and_value_or {A B : Type} (truth : A -> bool)
  (convert : qvalue -> A) (some : A -> B) (dflt : B)
  (settings : gmap string qvalue) (key : string) : B :=
  match settings !! key with
  | Some q => if truth (convert q) then some (convert q) else dflt
  | None => dflt
  end.

(** [MainWindow.read_settings], without the window geometry. *)
Definition read_settings (conv : conversions) (settings : gmap string qvalue)
  : Prefs :=
  let nonzero := fun z : Z => negb (z =? 0) in
  mkPrefs
    (contains_and_value_or nonzero (to_int conv) Some None
       settings "last_saved_sort_column")
    (contains_and_value_or nonzero (to_int conv) Some None
       settings "last_saved_sort_order")
    (contains_and_value_or nonzero (to_int conv) id 0 settings "domain_id")
    (contains_and_value_or id (to_bool conv) id false
       settings "is_toolbar_hidden")
    (contains_and_value_or PyStr.truthy (to_str conv) id DEFAULT_EDITOR
       settings "editor").

(** [MainWindow.write_settings]; [pos] and [size] are the geometry of the
    window. *)
Definition write_settings (pos size : Z * Z) (p : Prefs)
  (settings : gmap string qvalue) : gmap string qvalue :=
  <["domain_id" := QInt (domain_id p)]>
    (<["editor" := QStr (editor p)]>
       (<["is_toolbar_hidden" := QBool (is_toolbar_hidden p)]>
          (<["size" := QGeometry (fst size) (snd size)]>
             (<["pos" := QGeometry (fst pos) (snd pos)]> settings)))).

(** Conversions that keep a value of the requested type. *)
Definition plain_conversions : conversions :=
  mkConversions
    (fun q => match q with QInt z => z | _ => 0 end)
    (fun q => match q with QBool b => b | _ => false end)
    (fun q => match q with QStr s => s | _ => "" end).

(** ** A tool that can fail, and the end of [__init__]

    [MainWindow.exec] lets out the exceptions of [subprocess.Popen] and of
    [decode]: [ValueError] for a NUL character in an argument, [OSError],
    [UnicodeDecodeError].  A [Tool] answers a query or fails with one of
    them; the load below is the load above run on such a tool. *)

Definition Tool : Type := list string -> option string.

(** The tool that answers as [exec] and never fails, and the answers of a
    tool, with no output where it fails. *)
Definition reliable (exec : Exec) : Tool := fun args => Some (exec args).
Definition answers (tool : Tool) : Exec := fun args => default "" (tool args).

Inductive exn_x : Type :=
| IndexError_x
| ExecError_x.

Inductive result_x (A : Type) : Type :=
| Ok_x (a : A)
| Raise_x (e : exn_x).
Arguments Ok_x {A} a.
Arguments Raise_x {A} e.

Definition Mx (S A : Type) : Type := S -> result_x A * S.

#[global] Instance Mx_ret {S : Type} : MRet (Mx S) :=
  fun A a s => (Ok_x a, s).

#[global] Instance Mx_bind {S : Type} : MBind (Mx S) :=
  fun A B f m s =>
    match m s with
    | (Ok_x a, s') => f a s'
    | (Raise_x e, s') => (Raise_x e, s')
    end.

(** A computation that can only raise [IndexError], among those that can
    also fail in [exec]. *)
Definition lift_M {S A : Type} (m : M S A) : Mx S A :=
  fun s =>
    match m s with
    | (Ok a, s') => (Ok_x a, s')
    | (Raise IndexError, s') => (Raise_x IndexError_x, s')
    end.

(** [self.exec(args)]. *)
Definition exec_x {S : Type} (tool : Tool) (args : list string) : Mx S string :=
  fun s =>
    match tool args with
    | Some out => (Ok_x out, s)
    | None => (Raise_x ExecError_x, s)
    end.

Definition try_except_x {S A : Type} (body : Mx S A)
  (handler : exn_x -> Mx S A) : Mx S A :=
  fun s =>
    match body s with
    | (Ok_x a, s') => (Ok_x a, s')
    | (Raise_x e, s') => handler e s'
    end.

Fixpoint for_each_x {S A B : Type} (xs : list A) (body : B -> A -> Mx S B)
  (acc : B) : Mx S B :=
  match xs with
  | [] => mret acc
  | x :: xs' => acc' ← body acc x; for_each_x xs' body acc'
  end.

(** The body of the loop of [load_data_launchctl], with the exception of
    [exec] for the label's query. *)
Definition load_line_x (tool : Tool) (target : string) (data : list Job)
  (line : string) : Mx (gmap string string) (list Job) :=
  lbl ← lift_M (of_result (py_index (PyStr.split (String TAB "") line) (-1)));
  if PyStr.truthy lbl then
    details ← exec_x tool (print_job target lbl);
    lift_M (modify (<[lbl := details]>));;
    let paths := Re.findall "path =" details in
    match first_or paths Some None with
    | Some p =>
        if PyStr.startswith "/" p then
          let states := Re.findall "state =" details in
          let st := first_or states id "" in
          mret (data ++ [mkJob lbl p st])
        else mret data
    | None => mret data
    end
  else mret data.

(** [MainWindow.load_data_launchctl] on a tool that can fail. *)
Definition load_data_launchctl_x (tool : Tool) (uid : N) (domain_id : Z)
  : Mx (gmap string string) (list Job) :=
  name ← lift_M (of_result (py_index LAUNCHD_DOMAINS domain_id));
  let target := target_of uid name in
  gui_processes ← exec_x tool ["launchctl"; "print"; target];
  services ← lift_M (of_result (services_block gui_processes));
  for_each_x (PyStr.splitlines services) (load_line_x tool target) [].

(** The window [__init__] has built when [createDockWindows] returns,
    from the rows and the cache of its load. *)
Definition new_window (d : list Job) (j : gmap string string) : MainWindow :=
  let '(l_data, h1) := alloc d ∅ in
  let '(l_all, h2) := alloc [] h1 in
  let h3 := <[l_all := deref h2 l_data]> h2 in
  mkWindow j h3 l_data l_all l_data.

(** The whole of [MainWindow.__init__]: after the window is built,
    [configureTableView] calls [setSortingEnabled(True)], on which Qt
    sorts the table by the column and order of the header's sort
    indicator, column 0 in [DescendingOrder] at that time. *)
Definition MainWindow_start (tool : Tool) (uid : N) (domain_id : Z)
  : result_x MainWindow :=
  match load_data_launchctl_x tool uid domain_id ∅ with
  | (Raise_x e, _) => Raise_x e
  | (Ok_x d, j) =>
      match CustomTableModel.sort 0 DescendingOrder (new_window d j) with
      | (Ok _, w) => Ok_x w
      | (Raise IndexError, _) => Raise_x IndexError_x
      end
  end.

Definition on_jobs_x {A : Type} (m : Mx (gmap string string) A)
  : Mx MainWindow A :=
  fun w =>
    let '(r, j) := m (jobs w) in
    (r, mkWindow j (lists w) (data w) (data_all w) (arraydata w)).

(** [MainWindow.initialize_data] on a tool that can fail: [except
    Exception] catches what [exec] raises too. *)
Definition initialize_data_x (tool : Tool) (uid : N) (idx : Z)
  : Mx MainWindow unit :=
  try_except_x
    (d ← on_jobs_x (load_data_launchctl_x tool uid idx);
     lift_M (slice_assign data d);;
     v ← lift_M (read_list data);
     lift_M (slice_assign data_all v))
    (fun _ => mret tt).

(** The events of a session and the windows it reaches, from the whole of
    [__init__] and with tools that can fail. *)
Inductive session_event : Type :=
| TableAction (e : view_event)
| Refresh (tool : Tool) (uid : N) (idx : Z).

Definition session_step (e : session_event) (w : MainWindow) : MainWindow :=
  match e with
  | TableAction e => snd (handle e w)
  | Refresh tool uid idx => snd (initialize_data_x tool uid idx w)
  end.

Inductive session : MainWindow -> Prop :=
| session_start tool uid idx w :
    MainWindow_start tool uid idx = Ok_x w -> session w
| session_next e w :
    session w -> session (session_step e w).

(** The tool answers the query for the label [l]. *)
Definition answered (tool : Tool) (target : string) (l : string) : Prop :=
  is_Some (tool (print_job target l)).

(** The windows of a session whose cache is in step with the snapshot:
    since the last load that returned rows, no load has stored a detail
    text and then failed. *)
Inductive settled : MainWindow -> Prop :=
| settled_start tool uid idx w :
    MainWindow_start tool uid idx = Ok_x w -> settled w
| settled_table e w :
    settled w -> settled (snd (handle e w))
| settled_loaded tool uid idx w rows :
    session w ->
    fst (load_data_launchctl_x tool uid idx (jobs w)) = Ok_x rows ->
    settled (snd (initialize_data_x tool uid idx w))
| settled_untouched tool uid idx w e :
    settled w ->
    load_data_launchctl_x tool uid idx (jobs w) = (Raise_x e, jobs w) ->
    settled (snd (initialize_data_x tool uid idx w)).

(** The loop of the failing load on the labels of the lines: it stops at
    the first label whose query fails, with the cache it has by then. *)
Fixpoint load_labels_x (tool : Tool) (target : string) (lbls : list string)
  (data : list Job) (j : gmap string string)
  : result_x (list Job) * gmap string string :=
  match lbls with
  | [] => (Ok_x data, j)
  | lbl :: lbls' =>
      match tool (print_job target lbl) with
      | None => (Raise_x ExecError_x, j)
      | Some details =>
          load_labels_x tool target lbls'
            (data ++ option_list (parse_details lbl details))
            (<[lbl := details]> j)
      end
  end.

(** ** The filter and the patterns as the specification words them *)

(** The filter that ignores case in the label and in the path. *)
Definition filter_match_ignoring_case (text : string) (d : Job) : bool :=
  PyStr.contains (PyStr.lower text) (PyStr.lower (label d))
  || PyStr.contains (PyStr.lower text) (PyStr.lower (path d)).

(** A line that matches the pattern of a key, "anchored per line": some
    white space or none, the key, one white-space character and the
    value, all of it within the line. *)
Fixpoint skip_spaces (s : string) : string :=
  match s with
  | String c s' => if PyStr.isspace c then skip_spaces s' else s
  | EmptyString => EmptyString
  end.

Definition spec_line_value (key line : string) : option string :=
  match PyStr.strip_prefix key (skip_spaces line) with
  | Some (String c value) => if PyStr.isspace c then Some value else None
  | _ => None
  end.

(** The value of the first line of [text] that matches, the lines being
    separated by line feeds. *)
Definition spec_first_value (key text : string) : option string :=
  List.find (fun v : option string => bool_decide (is_Some v))
    (spec_line_value key <$> PyStr.split nl text) ≫= id.

(** Detail texts whose path or state line ends right after the equals
    sign. *)
Definition detail_path_cut : string :=
  String TAB "path =" +:+ nl +:+ "/foo" +:+ nl.

Definition detail_state_cut : string :=
  String TAB "path = /a.plist" +:+ nl
  +:+ String TAB "state =" +:+ nl
  +:+ String TAB "pid = 5" +:+ nl.

Definition tool_path_cut : Exec :=
  canned "gui/501" [("com.a.one", detail_path_cut)].

Definition tool_state_cut : Exec :=
  canned "gui/501" [("com.a.one", detail_state_cut)].

(** A tool that lists two labels and fails on the query for the second. *)
Definition tool_failing : Tool :=
  fun args =>
    if decide (args = print_job "gui/501" "com.b.two") then None
    else
      Some (canned "gui/501"
              [("com.a.one", detail_text "/Library/a.plist" "stopped");
               ("com.b.two", "")] args).

(** The windows at the end of [__init__] for [tool_one] and [tool_three],
    and the first after a refresh in which the second query fails. *)
Definition start_one : MainWindow :=
  snd (CustomTableModel.sort 0 DescendingOrder window_one).

Definition start_three : MainWindow :=
  snd (CustomTableModel.sort 0 DescendingOrder window_three).

Definition window_stale : MainWindow :=
  session_step (Refresh tool_failing 501 2) start_one.

(** * Checks of the library functions on small inputs *)

Example split_ex1 : PyStr.split "XX" "aXXXXb" = ["a"; ""; "b"].
Proof. reflexivity. Qed.
Example split_ex2 : PyStr.split "XX" "" = [""].
Proof. reflexivity. Qed.
Example splitlines_ex :
  PyStr.splitlines
    ("a" +:+ String PyStr.CR nl +:+ "b" +:+ nl +:+ nl +:+ "c" +:+ nl)
  = ["a"; "b"; ""; "c"].
Proof. reflexivity. Qed.
Example findall_ex1 :
  Re.findall "path ="
    (nl +:+ nl +:+ " path =" +:+ nl +:+ "/foo" +:+ nl
     +:+ " path = " +:+ nl +:+ nl
     +:+ " path = x" +:+ String PyStr.CR nl +:+ " path = y")
  = ["/foo"; ""; String "x" (String PyStr.CR ""); "y"].
Proof. vm_compute. reflexivity. Qed.
Example findall_ex2 :
  Re.findall "path =" (" path =" +:+ nl +:+ nl +:+ " path = z")
  = [""; "z"].
Proof. vm_compute. reflexivity. Qed.

Example load_ex :
  load_data_launchctl tool_one 501 2 ∅
  = (Ok [one],
     {[ "com.a.one" :=
          detail_text "/Library/LaunchAgents/com.a.one.plist" "running" ]}).
Proof. vm_compute. reflexivity. Qed.

Example load_three_ex :
  fst (load_data_launchctl tool_three 501 2 ∅) = Ok rows_three.
Proof. vm_compute. reflexivity. Qed.

Example scenario_listing_ex : listing_of ["com.a.one"] = scenario_listing.
Proof. reflexivity. Qed.

Example window_one_ex : MainWindow_init tool_one 501 2 = Ok window_one.
Proof. vm_compute. reflexivity. Qed.

Example window_three_ex : MainWindow_init tool_three 501 2 = Ok window_three.
Proof. vm_compute. reflexivity. Qed.

(** * Facts about the [str] methods *)

Section StrFacts.
Import PyStr.

Lemma app_nil_l (s : string) : "" +:+ s = s.
Proof. reflexivity. Qed.

Lemma app_cons (c : ascii) (a s : string) :
  String c a +:+ s = String c (a +:+ s).
Proof. reflexivity. Qed.

Lemma strip_prefix_Some p s r : strip_prefix p s = Some r <-> s = p +:+ r.
Proof.
  revert s; induction p as [|a p IH]; intros s.
  - rewrite app_nil_l. destruct s; simpl; split; congruence.
  - rewrite app_cons. destruct s as [|b s]; simpl; [split; discriminate|].
    destruct (Ascii.eqb_spec a b) as [->|Hab].
    + rewrite IH. split; congruence.
    + split; [discriminate | congruence].
Qed.

Lemma startswith_strip p s :
  startswith p s = true <-> exists r, strip_prefix p s = Some r.
Proof.
  revert s; induction p as [|a p IH]; intros [|b s]; simpl;
    try (split; [eauto | reflexivity]);
    try (split; [discriminate | intros [? ?]; discriminate]).
  destruct (Ascii.eqb a b); [apply IH|].
  split; [discriminate | intros [? ?]; discriminate].
Qed.

Lemma startswith_spec p s :
  startswith p s = true <-> exists r, s = p +:+ r.
Proof.
  rewrite startswith_strip.
  split; intros [r H]; exists r; apply strip_prefix_Some; assumption.
Qed.

Lemma contains_spec t s : contains t s = true <-> substring t s.
Proof.
  induction s as [|c s IH].
  - simpl. rewrite orb_false_r, startswith_spec. split.
    + intros [r ->]. exists "", r. reflexivity.
    + intros ([|c pre] & post & H).
      * exists post. exact H.
      * rewrite app_cons in H. discriminate.
  - cbn [contains]. rewrite orb_true_iff, IH, startswith_spec. split.
    + intros [[r ->] | (pre & post & ->)].
      * exists "", r. reflexivity.
      * exists (String c pre), post. reflexivity.
    + intros ([|c' pre] & post & H).
      * left. exists post. exact H.
      * right. rewrite app_cons in H. injection H as -> ->.
        exists pre, post. reflexivity.
Qed.

Lemma cut_None sep s : cut sep s = None <-> contains sep s = false.
Proof.
  induction s as [|c s IH]; cbn [cut contains].
  - rewrite orb_false_r.
    destruct (strip_prefix sep "") as [r|] eqn:E.
    + assert (startswith sep "" = true) as -> by (apply startswith_strip; eauto).
      split; discriminate.
    + destruct (startswith sep "") eqn:E'; [|tauto].
      apply startswith_strip in E' as [r E']. congruence.
  - destruct (strip_prefix sep (String c s)) as [r|] eqn:E.
    + assert (startswith sep (String c s) = true) as ->
        by (apply startswith_strip; eauto).
      split; discriminate.
    + destruct (startswith sep (String c s)) eqn:E'.
      { apply startswith_strip in E' as [r E']. congruence. }
      simpl. rewrite <- IH.
      destruct (cut sep s) as [[a b]|]; split; congruence.
Qed.

Lemma split_unfold c sep' s :
  split (String c sep') s =
  match cut (String c sep') s with
  | None => [s]
  | Some (a, b) => a :: split (String c sep') b
  end.
Proof.
  simp split.
  destruct (Logic.inspect (cut (String c sep') s)) as [[[a b]|] H];
    simpl; rewrite H; reflexivity.
Qed.

(** A separator that does not occur leaves the text in one piece. *)
Lemma split_absent sep s :
  truthy sep = true -> contains sep s = false -> split sep s = [s].
Proof.
  destruct sep as [|c sep']; [discriminate|]. intros _ H.
  apply cut_None in H. rewrite split_unfold, H. reflexivity.
Qed.

Lemma split_not_nil sep s : truthy sep = true -> split sep s <> [].
Proof.
  destruct sep as [|c sep']; [discriminate|]. intros _.
  rewrite split_unfold. destruct (cut _ s) as [[a b]|]; discriminate.
Qed.

(** A separator that occurs gives at least two pieces. *)
Lemma split_present sep s :
  truthy sep = true -> contains sep s = true ->
  exists a b rest, split sep s = a :: b :: rest.
Proof.
  intros Hsep H.
  destruct (cut sep s) as [[a b]|] eqn:E.
  - pose proof (split_not_nil sep b Hsep) as Hb.
    destruct sep as [|c sep']; [discriminate|].
    rewrite split_unfold, E.
    destruct (split (String c sep') b) as [|b' rest]; [congruence|].
    exists a, b', rest. reflexivity.
  - apply cut_None in E. congruence.
Qed.

Lemma lower_char_idemp c : lower_char (lower_char c) = lower_char c.
Proof. destruct c as [[] [] [] [] [] [] [] []]; reflexivity. Qed.

Lemma lower_idemp s : lower (lower s) = lower s.
Proof.
  induction s as [|c s IH]; simpl; [reflexivity|].
  rewrite lower_char_idemp, IH. reflexivity.
Qed.

Lemma lower_app a b : lower (a +:+ b) = lower a +:+ lower b.
Proof.
  induction a as [|c a IH]; [reflexivity|].
  rewrite app_cons. cbn [lower]. rewrite app_cons, IH. reflexivity.
Qed.

Lemma lower_length s : String.length (lower s) = String.length s.
Proof. induction s as [|c s IH]; simpl; congruence. Qed.

Lemma app_inj_length a a' b b' :
  a +:+ b = a' +:+ b' -> String.length a = String.length a' ->
  a = a' /\ b = b'.
Proof.
  revert a'; induction a as [|c a IH]; intros [|c' a']; simpl;
    try discriminate.
  - rewrite !app_nil_l. auto.
  - rewrite !app_cons. intros [= -> H] [= Hlen].
    destruct (IH _ H Hlen) as [-> ->]. auto.
Qed.

(** Text found in a lower-case string has no capital letter. *)
Lemma contains_lower_fixed text s :
  contains text (lower s) = true -> lower text = text.
Proof.
  intros (pre & post & H)%contains_spec.
  pose proof (lower_idemp s) as Hid. rewrite H in Hid.
  rewrite !lower_app in Hid.
  apply app_inj_length in Hid as [_ Hid]; [|apply lower_length].
  apply app_inj_length in Hid as [Hid _]; [|apply lower_length].
  exact Hid.
Qed.

End StrFacts.

(** * The load as a function of the tool's answers *)

Section LoadFacts.
Import PyStr.
Variable exec : Exec.
Variable uid : N.

Lemma py_index_0 {A : Type} (x : A) (l : list A) : py_index (x :: l) 0 = Ok x.
Proof.
  unfold py_index. cbn [length].
  replace (0 <? 0) with false by reflexivity.
  replace ((0 <=? 0) && (0 <? Z.of_nat (S (length l)))) with true
    by (symmetry; apply andb_true_iff; split; [reflexivity | apply Z.ltb_lt; lia]).
  reflexivity.
Qed.

Lemma py_index_1 {A : Type} (x y : A) (l : list A) :
  py_index (x :: y :: l) 1 = Ok y.
Proof.
  unfold py_index. cbn [length].
  replace (1 <? 0) with false by reflexivity.
  replace ((0 <=? 1) && (1 <? Z.of_nat (S (S (length l))))) with true
    by (symmetry; apply andb_true_iff; split; [reflexivity | apply Z.ltb_lt; lia]).
  reflexivity.
Qed.

Lemma py_index_1_single {A : Type} (x : A) : py_index [x] 1 = Raise IndexError.
Proof. reflexivity. Qed.

Lemma py_index_last {A : Type} (l : list A) (d : A) :
  l <> [] -> py_index l (-1) = Ok (default d (last l)).
Proof.
  intros Hl. unfold py_index.
  replace (-1 <? 0) with true by reflexivity.
  destruct l as [|x l] using rev_ind; [congruence|]. clear IHl Hl.
  rewrite last_snoc, length_app. cbn [length default].
  replace (Z.of_nat (length l + 1) + -1) with (Z.of_nat (length l)) by lia.
  replace ((0 <=? Z.of_nat (length l))
           && (Z.of_nat (length l) <? Z.of_nat (length l + 1))) with true
    by (symmetry; apply andb_true_iff; split;
        [apply Z.leb_le | apply Z.ltb_lt]; lia).
  rewrite Nat2Z.id, lookup_app_r by lia.
  rewrite Nat.sub_diag. reflexivity.
Qed.

(** The services block exists exactly when the opening marker occurs. *)
Lemma services_block_absent out :
  contains SERVICES_OPEN out = false ->
  services_block out = Raise IndexError.
Proof.
  intros H. unfold services_block.
  rewrite split_absent by (reflexivity || assumption).
  reflexivity.
Qed.

Lemma services_block_present out :
  contains SERVICES_OPEN out = true ->
  exists services, services_block out = Ok services.
Proof.
  intros H. unfold services_block.
  destruct (split_present SERVICES_OPEN out eq_refl H) as (a & b & rest & ->).
  rewrite py_index_1. cbn [mbind result_bind].
  pose proof (split_not_nil SERVICES_CLOSE b eq_refl) as Hb.
  destruct (split SERVICES_CLOSE b) as [|x l]; [congruence|].
  exists x. apply py_index_0.
Qed.

Lemma first_or_parse lbl details :
  match first_or (Re.findall "path =" details) Some None with
  | Some p =>
      if startswith "/" p
      then Some (mkJob lbl p (first_or (Re.findall "state =" details) id ""))
      else None
  | None => None
  end = parse_details lbl details.
Proof.
  unfold parse_details, state_of, first_or.
  destruct (Re.findall "path =" details) as [|[|c p] ?]; try reflexivity.
  cbn [truthy]. destruct (startswith "/" (String c p)); [|reflexivity].
  destruct (Re.findall "state =" details) as [|[|? ?] ?]; reflexivity.
Qed.

Lemma load_line_eq target data line j :
  load_line exec target data line j =
  let lbl := default "" (last (split (String TAB "") line)) in
  if truthy lbl then
    (Ok (data ++ option_list (parse_details lbl (details_of exec target lbl))),
     <[lbl := details_of exec target lbl]> j)
  else (Ok data, j).
Proof.
  unfold load_line, details_of.
  rewrite (py_index_last _ "") by (apply split_not_nil; reflexivity).
  cbv zeta. unfold mbind, M_bind, of_result.
  destruct (truthy _); [|reflexivity].
  unfold modify. rewrite <- first_or_parse.
  destruct (first_or (Re.findall "path =" _) Some None) as [p|];
    [|rewrite app_nil_r; reflexivity].
  destruct (startswith "/" p); [reflexivity|].
  rewrite app_nil_r. reflexivity.
Qed.

Lemma for_each_load_line target lines data j :
  for_each lines (load_line exec target) data j =
  let lbls :=
    List.filter truthy
      ((fun line => default "" (last (split (String TAB "") line))) <$> lines) in
  (Ok (data ++ rows_of exec target lbls), cache_after exec target lbls j).
Proof.
  revert data j; induction lines as [|line lines IH]; intros data j.
  - cbn. rewrite app_nil_r. reflexivity.
  - cbn [for_each]. unfold mbind at 1, M_bind at 1.
    rewrite load_line_eq. cbv zeta. cbn [fmap list_fmap List.filter].
    destruct (truthy (default "" (last (split (String TAB "") line)))).
    + rewrite IH. cbv zeta. unfold rows_of, cache_after. cbn [omap list_omap foldl].
      destruct (parse_details _ _); cbn [option_list];
        rewrite <- ?app_assoc; reflexivity.
    + rewrite IH. reflexivity.
Qed.

(** The whole load: it fails on a bad domain index or a missing marker,
    before the cache is touched, and otherwise returns the rows of the
    listed labels in listing order. *)
Lemma load_data_launchctl_eq idx j :
  load_data_launchctl exec uid idx j =
  match py_index LAUNCHD_DOMAINS idx with
  | Raise e => (Raise e, j)
  | Ok name =>
      let target := target_of uid name in
      match services_block (exec ["launchctl"; "print"; target]) with
      | Raise e => (Raise e, j)
      | Ok services =>
          (Ok (rows_of exec target (listed_labels services)),
           cache_after exec target (listed_labels services) j)
      end
  end.
Proof.
  unfold load_data_launchctl, mbind, M_bind, of_result.
  destruct (py_index LAUNCHD_DOMAINS idx) as [name|e]; [|reflexivity].
  cbv zeta.
  destruct (services_block _) as [services|e]; [|reflexivity].
  rewrite for_each_load_line. reflexivity.
Qed.

Lemma cache_after_lookup target lbls j l :
  cache_after exec target lbls j !! l =
  if decide (l ∈ lbls) then Some (details_of exec target l) else j !! l.
Proof.
  revert j; induction lbls as [|x lbls IH]; intros j; cbn [cache_after foldl].
  - rewrite decide_False by apply not_elem_of_nil. reflexivity.
  - fold (cache_after exec target lbls (<[x:=details_of exec target x]> j)).
    rewrite IH. destruct (decide (l ∈ lbls)) as [Hin|Hnin].
    + rewrite decide_True by (right; assumption). reflexivity.
    + destruct (decide (x = l)) as [->|Hne].
      * rewrite lookup_insert_eq, decide_True by left. reflexivity.
      * rewrite lookup_insert_ne by assumption.
        rewrite decide_False; [reflexivity|].
        intros [?|?]%elem_of_cons; congruence.
Qed.

Lemma cache_after_dom target lbls j :
  dom (cache_after exec target lbls j) = dom j ∪ list_to_set lbls.
Proof.
  apply set_eq. intros l.
  rewrite elem_of_dom, cache_after_lookup, elem_of_union, elem_of_dom,
    elem_of_list_to_set.
  destruct (decide (l ∈ lbls)); [split; eauto | tauto].
Qed.

Lemma rows_of_elem target lbls r :
  r ∈ rows_of exec target lbls <->
  label r ∈ lbls /\ parse_details (label r) (details_of exec target (label r)) = Some r.
Proof.
  unfold rows_of. rewrite list_elem_of_omap. split.
  - intros (l & Hl & Hp).
    assert (label r = l) as <-.
    { unfold parse_details in Hp.
      destruct (Re.findall "path =" _) as [|p ?]; [discriminate|].
      destruct (startswith "/" p); [|discriminate].
      injection Hp as <-. reflexivity. }
    split; assumption.
  - intros [Hl Hp]. exists (label r). split; assumption.
Qed.

End LoadFacts.

(** * The built-in [sorted] is a stable sort *)

Section SortFacts.
Context {A : Type}.
Implicit Types (x : string * A) (l : list (string * A)).

Lemma leb_refl (s : string) : String.leb s s = true.
Proof. destruct (String.leb_total s s); assumption. Qed.

Lemma insert_perm x l : Py.insert x l ≡ₚ x :: l.
Proof.
  induction l as [|y l IH]; cbn [Py.insert]; [reflexivity|].
  destruct (String.leb (fst x) (fst y)); [reflexivity|].
  rewrite IH. apply Permutation_swap.
Qed.

Lemma stable_sort_perm l : Py.stable_sort l ≡ₚ l.
Proof.
  induction l as [|x l IH]; [reflexivity|].
  unfold Py.stable_sort in *. cbn [foldr].
  rewrite insert_perm, IH. reflexivity.
Qed.

Lemma insert_sorted x l : Sorted key_le l -> Sorted key_le (Py.insert x l).
Proof.
  induction l as [|y l IH]; cbn [Py.insert]; intros Hs.
  - repeat constructor.
  - destruct (String.leb (fst x) (fst y)) eqn:E.
    + constructor; [assumption|]. constructor. exact E.
    + inversion_clear Hs as [|? ? Hl Hy].
      constructor; [apply IH; assumption|].
      assert (key_le y x) as Hyx.
      { unfold key_le. destruct (String.leb_total (fst x) (fst y)); congruence. }
      destruct l as [|z l]; cbn [Py.insert].
      * constructor. exact Hyx.
      * destruct (String.leb (fst x) (fst z)); constructor;
          [exact Hyx | inversion_clear Hy; assumption].
Qed.

Lemma stable_sort_sorted l : Sorted key_le (Py.stable_sort l).
Proof.
  induction l as [|x l IH]; [constructor|].
  apply insert_sorted. exact IH.
Qed.

(** Sorting a sorted list changes nothing. *)
Lemma stable_sort_id l : Sorted key_le l -> Py.stable_sort l = l.
Proof.
  induction l as [|x l IH]; [reflexivity|]. intros Hs.
  inversion_clear Hs as [|? ? Hl Hx].
  unfold Py.stable_sort in *. cbn [foldr]. rewrite IH by assumption.
  destruct l as [|y l]; [reflexivity|]. cbn [Py.insert].
  inversion_clear Hx as [|? ? Hxy]. unfold key_le in Hxy. rewrite Hxy.
  reflexivity.
Qed.

(** An insertion never passes an element of the same key. *)
Lemma insert_with_key v x l :
  with_key v (Py.insert x l) = with_key v (x :: l).
Proof.
  induction l as [|y l IH]; cbn [Py.insert]; [reflexivity|].
  destruct (String.leb (fst x) (fst y)) eqn:E; [reflexivity|].
  unfold with_key in *. cbn [List.filter] in *. rewrite IH.
  destruct (String.eqb_spec (fst x) v) as [Hx|Hx];
    destruct (String.eqb_spec (fst y) v) as [Hy|Hy]; try reflexivity.
  rewrite Hx, Hy, leb_refl in E. discriminate.
Qed.

Lemma stable_sort_with_key v l :
  with_key v (Py.stable_sort l) = with_key v l.
Proof.
  induction l as [|x l IH]; [reflexivity|].
  unfold Py.stable_sort in *. cbn [foldr]. rewrite insert_with_key.
  unfold with_key in *. cbn [List.filter]. rewrite IH. reflexivity.
Qed.

Lemma with_key_app v l1 l2 :
  with_key v (l1 ++ l2) = with_key v l1 ++ with_key v l2.
Proof. apply List.filter_app. Qed.

Lemma with_key_rev v l : with_key v (rev l) = rev (with_key v l).
Proof.
  induction l as [|x l IH]; [reflexivity|].
  cbn [rev]. rewrite with_key_app, IH. unfold with_key. cbn [List.filter].
  destruct (String.eqb (fst x) v); cbn [rev]; [reflexivity|].
  rewrite app_nil_r. reflexivity.
Qed.

Lemma arrange_with_key reverse v l :
  with_key v (arrange reverse l) = with_key v l.
Proof.
  destruct reverse; cbn [arrange].
  - rewrite with_key_rev, stable_sort_with_key, with_key_rev, rev_involutive.
    reflexivity.
  - apply stable_sort_with_key.
Qed.

Lemma arrange_idemp reverse l :
  arrange reverse (arrange reverse l) = arrange reverse l.
Proof.
  destruct reverse; cbn [arrange].
  - rewrite rev_involutive, (stable_sort_id (Py.stable_sort _))
      by apply stable_sort_sorted.
    reflexivity.
  - apply stable_sort_id, stable_sort_sorted.
Qed.

Lemma arrange_perm reverse l : arrange reverse l ≡ₚ l.
Proof.
  destruct reverse; cbn [arrange].
  - etransitivity; [symmetry; apply Permutation_rev|].
    etransitivity; [apply stable_sort_perm|].
    symmetry; apply Permutation_rev.
  - apply stable_sort_perm.
Qed.

(** Rows decorated with the value of a total key function. *)
Variable key : A -> string.

Lemma decorate_total (rows : list A) :
  Py.decorate (fun a => Ok (key a)) rows = Ok (keyed key <$> rows).
Proof.
  induction rows as [|a rows IH]; [reflexivity|].
  cbn [Py.decorate]. rewrite IH. reflexivity.
Qed.

Lemma arrange_keyed reverse (rows : list A) :
  keyed key <$> (snd <$> arrange reverse (keyed key <$> rows))
  = arrange reverse (keyed key <$> rows).
Proof.
  assert (forall l, l ≡ₚ keyed key <$> rows -> keyed key <$> (snd <$> l) = l) as H.
  { intros l Hl.
    assert (Forall (fun x => keyed key (snd x) = x) l) as Hall.
    { apply Forall_forall. intros x Hx. rewrite Hl in Hx.
      apply list_elem_of_fmap in Hx as (a & -> & _). reflexivity. }
    clear Hl. induction Hall as [|x l' Hx _ IH]; [reflexivity|].
    cbn [fmap list_fmap] in *. rewrite Hx. f_equal. exact IH. }
  apply H, arrange_perm.
Qed.

Lemma with_key_undecorate v (rows : list A) :
  List.filter (fun a => String.eqb (key a) v) rows
  = snd <$> with_key v (keyed key <$> rows).
Proof.
  induction rows as [|a rows IH]; [reflexivity|].
  unfold with_key in *. cbn [fmap list_fmap List.filter fst keyed].
  destruct (String.eqb (key a) v); cbn [fmap list_fmap snd]; rewrite IH;
    reflexivity.
Qed.

End SortFacts.

(** * [operator.itemgetter] and [CustomTableModel.sort] on the rows *)

Section ColumnFacts.

Lemma itemgetter_valid ncol d :
  -3 <= ncol < 3 -> Py.itemgetter ncol d = Ok (column ncol d).
Proof.
  intros H. unfold column.
  assert (ncol = -3 \/ ncol = -2 \/ ncol = -1 \/ ncol = 0 \/ ncol = 1 \/ ncol = 2)
    as [->|[->|[->|[->|[->| ->]]]]] by lia; reflexivity.
Qed.

Lemma itemgetter_invalid ncol d :
  ~ -3 <= ncol < 3 -> Py.itemgetter ncol d = Raise IndexError.
Proof.
  intros H. unfold Py.itemgetter, py_index. cbn [length].
  destruct (ncol <? 0) eqn:E.
  - apply Z.ltb_lt in E.
    replace (0 <=? Z.of_nat 3 + ncol) with false; [reflexivity|].
    symmetry. apply Z.leb_gt. lia.
  - apply Z.ltb_ge in E.
    replace (ncol <? Z.of_nat 3) with false;
      [rewrite andb_false_r; reflexivity|].
    symmetry. apply Z.ltb_ge. lia.
Qed.

Lemma decorate_ext {A : Type} (f g : A -> result string) (l : list A) :
  (forall a, f a = g a) -> Py.decorate f l = Py.decorate g l.
Proof.
  intros H. induction l as [|a l IH]; [reflexivity|].
  cbn [Py.decorate]. rewrite H, IH. reflexivity.
Qed.

(** With a column the rows have, [sorted] returns the rows arranged by
    that column. *)
Lemma sorted_valid ncol reverse rows :
  -3 <= ncol < 3 ->
  Py.sorted (Py.itemgetter ncol) reverse rows
  = Ok (snd <$> arrange reverse (keyed (column ncol) <$> rows)).
Proof.
  intros H. unfold Py.sorted.
  rewrite (decorate_ext _ (fun a => Ok (column ncol a)))
    by (intros a; apply itemgetter_valid; assumption).
  rewrite decorate_total. reflexivity.
Qed.

(** With any other column, [sorted] raises on the first row. *)
Lemma sorted_invalid ncol reverse rows :
  ~ -3 <= ncol < 3 ->
  Py.sorted (Py.itemgetter ncol) reverse rows
  = match rows with [] => Ok [] | _ :: _ => Raise IndexError end.
Proof.
  intros H. unfold Py.sorted.
  destruct rows as [|d rows]; [destruct reverse; reflexivity|].
  cbn [Py.decorate]. rewrite itemgetter_invalid by assumption. reflexivity.
Qed.

End ColumnFacts.

(** * The handlers on the window *)

Section WindowFacts.

Lemma deref_insert_eq h l v : deref (<[l := v]> h) l = v.
Proof. unfold deref. rewrite lookup_insert_eq. reflexivity. Qed.

Lemma deref_insert_ne h l l' v : l <> l' -> deref (<[l := v]> h) l' = deref h l'.
Proof. intros H. unfold deref. rewrite lookup_insert_ne by assumption. reflexivity. Qed.

(** The search handler never raises: it stores the filtered rows in the
    list object [self.data]. *)
Lemma on_search_changed_eq text w :
  on_search_changed text w =
  (Ok tt,
   mkWindow (jobs w)
     (<[data w :=
          if PyStr.truthy text
          then List.filter (filter_match text) (snapshot w)
          else snapshot w]> (lists w))
     (data w) (data_all w) (arraydata w)).
Proof.
  unfold on_search_changed, try_except, slice_assign, modify, read_list, gets, snapshot.
  destruct (PyStr.truthy text); reflexivity.
Qed.

(** The sort handler stores the rows [sorted] returns in the list object
    the model refers to, or raises and changes nothing. *)
Lemma sort_eq ncol order w :
  CustomTableModel.sort ncol order w =
  match Py.sorted (Py.itemgetter ncol) (negb (SortOrder_value order =? 0)) (view w) with
  | Ok sorted_data =>
      (Ok tt,
       mkWindow (jobs w) (<[arraydata w := sorted_data]> (lists w))
         (data w) (data_all w) (arraydata w))
  | Raise e => (Raise e, w)
  end.
Proof.
  unfold CustomTableModel.sort, mbind, M_bind, read_list, gets, of_result, view.
  destruct (Py.sorted _ _ _); reflexivity.
Qed.

Lemma handle_refs e w :
  let w' := snd (handle e w) in
  jobs w' = jobs w /\ data w' = data w /\ data_all w' = data_all w
  /\ arraydata w' = arraydata w.
Proof.
  destruct e as [text|ncol order]; cbn [handle].
  - rewrite on_search_changed_eq. cbn. auto.
  - rewrite sort_eq. destruct (Py.sorted _ _ _); cbn; auto.
Qed.

Lemma handle_window_ok e w : window_ok w -> window_ok (snd (handle e w)).
Proof.
  intros [H1 H2]. destruct (handle_refs e w) as (_ & Hd & Ha & Hr).
  unfold window_ok. rewrite Hd, Ha, Hr. auto.
Qed.

(** No handler writes to the list object [self.data_all]. *)
Lemma handle_snapshot e w :
  window_ok w -> snapshot (snd (handle e w)) = snapshot w.
Proof.
  intros [H1 H2]. destruct e as [text|ncol order]; cbn [handle].
  - rewrite on_search_changed_eq. unfold snapshot at 1. cbn.
    apply deref_insert_ne. assumption.
  - rewrite sort_eq. destruct (Py.sorted _ _ _); [|reflexivity].
    unfold snapshot at 1. cbn. apply deref_insert_ne. congruence.
Qed.

Lemma run_events_window_ok es w : window_ok w -> window_ok (run_events es w).
Proof.
  revert w; induction es as [|e es IH]; intros w H; [assumption|].
  apply IH, handle_window_ok, H.
Qed.

Lemma run_events_snapshot es w :
  window_ok w -> snapshot (run_events es w) = snapshot w.
Proof.
  revert w; induction es as [|e es IH]; intros w H; [reflexivity|].
  cbn [run_events foldl]. fold (run_events es (snd (handle e w))).
  rewrite IH by (apply handle_window_ok, H).
  apply handle_snapshot, H.
Qed.

Lemma on_search_changed_view text w :
  window_ok w ->
  view (snd (on_search_changed text w)) =
  if PyStr.truthy text then List.filter (filter_match text) (snapshot w)
  else snapshot w.
Proof.
  intros [H1 H2]. rewrite on_search_changed_eq. unfold view. cbn.
  rewrite H1. apply deref_insert_eq.
Qed.


(** A refresh that loads [rows] makes them the snapshot and the view; a
    refresh whose load raises leaves the window as it was. *)
Lemma initialize_data_ok exec uid idx w rows j :
  window_ok w ->
  load_data_launchctl exec uid idx (jobs w) = (Ok rows, j) ->
  let w' := snd (initialize_data exec uid idx w) in
  fst (initialize_data exec uid idx w) = Ok tt
  /\ window_ok w' /\ jobs w' = j /\ snapshot w' = rows /\ view w' = rows.
Proof.
  intros [H1 H2] Hload.
  unfold initialize_data, try_except, mbind, M_bind, on_jobs.
  rewrite Hload. unfold slice_assign, modify, read_list, gets. cbn.
  unfold window_ok, snapshot, view. cbn.
  rewrite deref_insert_eq. repeat split; try assumption.
  - apply deref_insert_eq.
  - rewrite H1. rewrite deref_insert_ne by congruence. apply deref_insert_eq.
Qed.

Lemma initialize_data_raise exec uid idx w e :
  load_data_launchctl exec uid idx (jobs w) = (Raise e, jobs w) ->
  initialize_data exec uid idx w = (Ok tt, w).
Proof.
  intros Hload.
  unfold initialize_data, try_except, mbind, M_bind, on_jobs.
  rewrite Hload. destruct w; reflexivity.
Qed.

End WindowFacts.

(** * The claims *)

Section Claims.
Import PyStr.

(** C1, as the specification states it, fails: for a tool whose output
    has no services marker the load does not return an empty snapshot, it
    raises [IndexError], and so does [__init__]. *)
Lemma silent_domain_raises :
  contains SERVICES_OPEN (silent ["launchctl"; "print"; "gui/501"]) = false
  /\ load_data_launchctl silent 501 2 ∅ = (Raise IndexError, ∅)
  /\ MainWindow_init silent 501 2 = Raise IndexError.
Proof. repeat split; vm_compute; reflexivity. Qed.

(** C1, amended: when the output for the domain has no services marker,
    [load_data_launchctl] returns no snapshot: it raises [IndexError]
    before any query for a label, with the detail cache as it was; a
    change of domain or a refresh ([initialize_data]) catches the
    exception and leaves the window, with its snapshot and view, as it
    was. *)
Theorem load_without_marker_raises exec uid idx name j :
  py_index LAUNCHD_DOMAINS idx = Ok name ->
  contains SERVICES_OPEN (exec ["launchctl"; "print"; target_of uid name]) = false ->
  load_data_launchctl exec uid idx j = (Raise IndexError, j)
  /\ forall w, initialize_data exec uid idx w = (Ok tt, w).
Proof.
  intros Hname Hout.
  assert (forall j', load_data_launchctl exec uid idx j' = (Raise IndexError, j')) as H.
  { intros j'. rewrite load_data_launchctl_eq, Hname. cbv zeta.
    rewrite services_block_absent by assumption. reflexivity. }
  split; [apply H|]. intros w. eapply initialize_data_raise, H.
Qed.

Lemma load_without_marker_raises_witness :
  load_data_launchctl silent 0 1 ∅ = (Raise IndexError, ∅)
  /\ forall w, initialize_data silent 0 1 w = (Ok tt, w).
Proof.
  apply (load_without_marker_raises silent 0 1 "System" ∅); reflexivity.
Defined.

(** A domain without jobs whose output still has the services block gives
    the empty snapshot. *)
Example empty_block_no_rows :
  load_data_launchctl (canned "gui/501" []) 501 2 ∅ = (Ok [], ∅).
Proof. vm_compute. reflexivity. Qed.

(** C2, as the specification states it, fails: the text [library] is
    neither in the label of the job of [tool_one] nor in its path as it is
    written, [/Library/LaunchAgents/com.a.one.plist], so the specified
    filter drops the row; the search handler looks in the path in lower
    case and shows the row. *)
Lemma filter_path_ignores_case :
  snapshot window_one = [one]
  /\ List.filter (spec_filter_match "library") (snapshot window_one) = []
  /\ view (snd (on_search_changed "library" window_one)) = [one].
Proof. repeat split; vm_compute; reflexivity. Qed.

Lemma elem_of_List_filter {A : Type} (f : A -> bool) (l : list A) (x : A) :
  x ∈ List.filter f l <-> x ∈ l /\ f x = true.
Proof. rewrite !list_elem_of_In. apply filter_In. Qed.

Lemma List_filter_sublist_impl {A : Type} (f g : A -> bool) (l : list A) :
  (forall x, f x = true -> g x = true) ->
  List.filter f l `sublist_of` List.filter g l.
Proof.
  intros H. induction l as [|x l IH]; [constructor|]. cbn [List.filter].
  destruct (f x) eqn:E.
  - rewrite (H _ E). constructor. exact IH.
  - destruct (g x); [constructor|]; exact IH.
Qed.

Lemma filter_match_ignores_case text d :
  filter_match text d = true -> filter_match_ignoring_case text d = true.
Proof.
  unfold filter_match, filter_match_ignoring_case. rewrite !orb_true_iff.
  intros [H|H]; [left; exact H|]. right.
  rewrite (contains_lower_fixed _ _ H). exact H.
Qed.

(** C2, amended: for a text that is not empty the search handler shows
    rows of the snapshot in snapshot order: every row whose label
    contains the text when case is ignored, and besides them only rows
    whose path contains the text when case is ignored.  For a text
    without capital letters these are exactly the rows whose label or
    path contains the text when case is ignored. *)
Theorem on_search_changed_matches w text :
  window_ok w -> truthy text = true ->
  fst (on_search_changed text w) = Ok tt
  /\ List.filter (fun d => contains (lower text) (lower (label d))) (snapshot w)
     `sublist_of` view (snd (on_search_changed text w))
  /\ view (snd (on_search_changed text w))
     `sublist_of` List.filter (filter_match_ignoring_case text) (snapshot w)
  /\ (lower text = text ->
      view (snd (on_search_changed text w))
      = List.filter (filter_match_ignoring_case text) (snapshot w)).
Proof.
  intros Hok Htext.
  split; [rewrite on_search_changed_eq; reflexivity|].
  rewrite on_search_changed_view by assumption. rewrite Htext.
  split; [|split].
  - apply List_filter_sublist_impl. intros d H.
    unfold filter_match. rewrite H. reflexivity.
  - apply List_filter_sublist_impl. intros d. apply filter_match_ignores_case.
  - intros Hlow. unfold filter_match, filter_match_ignoring_case.
    rewrite Hlow. reflexivity.
Qed.

(** A text with a capital letter never matches through the path. *)
Lemma filter_match_capital text d :
  lower text <> text ->
  filter_match text d = contains (lower text) (lower (label d)).
Proof.
  intros H. unfold filter_match.
  destruct (contains text (lower (path d))) eqn:E; [|apply orb_false_r].
  apply contains_lower_fixed in E. congruence.
Qed.

Lemma on_search_changed_matches_witness :
  fst (on_search_changed "library" window_three) = Ok tt
  /\ List.filter (fun d => contains (lower "library") (lower (label d)))
       (snapshot window_three)
     `sublist_of` view (snd (on_search_changed "library" window_three))
  /\ view (snd (on_search_changed "library" window_three))
     `sublist_of` List.filter (filter_match_ignoring_case "library")
                    (snapshot window_three)
  /\ (lower "library" = "library" ->
      view (snd (on_search_changed "library" window_three))
      = List.filter (filter_match_ignoring_case "library")
          (snapshot window_three)).
Proof.
  apply (on_search_changed_matches window_three "library");
    [split; [reflexivity | discriminate] | reflexivity].
Defined.

(** C3, as the specification states it, fails: after a window started
    on [tool_one] is refreshed on [tool_two], whose listing has the one
    label [com.b.two], the cache still holds the detail text of
    [com.a.one]. *)
Lemma stale_cache_entry_survives :
  (services ← services_block (tool_two ["launchctl"; "print"; "gui/501"]);
   Ok (listed_labels services)) = Ok ["com.b.two"]
  /\ label <$> snapshot (snd (initialize_data tool_two 501 2 window_one))
     = ["com.b.two"]
  /\ jobs (snd (initialize_data tool_two 501 2 window_one)) !! "com.a.one"
     = Some (detail_text "/Library/LaunchAgents/com.a.one.plist" "running").
Proof. repeat split; vm_compute; reflexivity. Qed.

(** C3, amended: a load that completes stores in the cache the detail
    text it fetched for each label of its listing, and keeps every other
    entry as it was: the cache is merged, never cleared, and its labels
    are those it had before together with the listed ones. *)
Theorem load_cache_merged exec uid idx j rows j' :
  load_data_launchctl exec uid idx j = (Ok rows, j') ->
  exists name services,
    py_index LAUNCHD_DOMAINS idx = Ok name
    /\ services_block (exec ["launchctl"; "print"; target_of uid name]) = Ok services
    /\ dom j' = dom j ∪ list_to_set (listed_labels services)
    /\ (forall l, l ∈ listed_labels services ->
          j' !! l = Some (exec (print_job (target_of uid name) l)))
    /\ (forall l, l ∉ listed_labels services -> j' !! l = j !! l).
Proof.
  rewrite load_data_launchctl_eq.
  destruct (py_index LAUNCHD_DOMAINS idx) as [name|e]; [|discriminate].
  cbv zeta.
  destruct (services_block _) as [services|e] eqn:Hs; [|discriminate].
  intros [= <- <-]. exists name, services.
  split; [reflexivity|]. split; [exact Hs|].
  split; [apply cache_after_dom|].
  split; intros l Hl; rewrite cache_after_lookup.
  - rewrite decide_True by assumption. reflexivity.
  - rewrite decide_False by assumption. reflexivity.
Qed.

Lemma load_cache_merged_witness :
  exists name services,
    py_index LAUNCHD_DOMAINS 2 = Ok name
    /\ services_block (tool_two ["launchctl"; "print"; target_of 501 name]) = Ok services
    /\ dom (snd (load_data_launchctl tool_two 501 2 (jobs window_one)))
       = dom (jobs window_one) ∪ list_to_set (listed_labels services)
    /\ (forall l, l ∈ listed_labels services ->
          snd (load_data_launchctl tool_two 501 2 (jobs window_one)) !! l
          = Some (tool_two (print_job (target_of 501 name) l)))
    /\ (forall l, l ∉ listed_labels services ->
          snd (load_data_launchctl tool_two 501 2 (jobs window_one)) !! l
          = jobs window_one !! l).
Proof.
  apply (load_cache_merged tool_two 501 2 (jobs window_one)
           (match fst (load_data_launchctl tool_two 501 2 (jobs window_one)) with
            | Ok rows => rows
            | Raise _ => []
            end)).
  vm_compute. reflexivity.
Defined.

Lemma parse_details_Some lbl details r :
  parse_details lbl details = Some r <->
  exists p ps,
    Re.findall "path =" details = p :: ps
    /\ startswith "/" p = true
    /\ r = mkJob lbl p (state_of details).
Proof.
  unfold parse_details.
  destruct (Re.findall "path =" details) as [|p ps].
  - split; [discriminate | intros (? & ? & ? & _); discriminate].
  - destruct (startswith "/" p) eqn:E; split.
    + intros [= <-]. exists p, ps. auto.
    + intros (? & ? & [= <- <-] & _ & ->). reflexivity.
    + discriminate.
    + intros (? & ? & [= <- <-] & ? & _). congruence.
Qed.



(** The fixture of C4: [com.b.rel] is listed with a relative path and
    has no row. *)
Example relative_path_dropped :
  (services ← services_block (tool_three ["launchctl"; "print"; "gui/501"]);
   Ok (listed_labels services))
  = Ok ["com.c.web"; "com.a.one"; "com.b.rel"; "com.d.off"]
  /\ Re.findall "path =" (tool_three (print_job "gui/501" "com.b.rel"))
     = ["Library/b.plist"]
  /\ label <$> rows_three = ["com.c.web"; "com.a.one"; "com.d.off"].
Proof. repeat split; vm_compute; reflexivity. Qed.

(** C5: no sequence of filter and sort actions changes the snapshot, the
    rows of the list object [self.data_all]; only the rows of the other
    list object, the view, change. *)
Theorem view_events_keep_snapshot w es :
  window_ok w -> snapshot (run_events es w) = snapshot w.
Proof. apply run_events_snapshot. Qed.

Lemma view_events_keep_snapshot_witness :
  snapshot (run_events [SetSort 0 DescendingOrder; SetFilter "web";
                        SetSort 7 AscendingOrder; SetFilter ""] window_three)
  = snapshot window_three.
Proof.
  apply (view_events_keep_snapshot window_three).
  split; [reflexivity | discriminate].
Defined.

(** C6: with the listing and the detail text of the scenario, the load
    returns the one row of [com.a.one], whatever the domain. *)
Theorem load_scenario_one exec uid idx name j :
  py_index LAUNCHD_DOMAINS idx = Ok name ->
  exec ["launchctl"; "print"; target_of uid name] = scenario_listing ->
  exec (print_job (target_of uid name) "com.a.one") = scenario_detail ->
  load_data_launchctl exec uid idx j
  = (Ok [mkJob "com.a.one" "/Library/LaunchAgents/com.a.one.plist" "running"],
     <["com.a.one" := scenario_detail]> j).
Proof.
  intros Hname Hlisting Hdetail.
  rewrite load_data_launchctl_eq, Hname. cbv zeta. rewrite Hlisting.
  assert (services_block scenario_listing
          = Ok (String TAB "1" +:+ String TAB "-" +:+ String TAB "com.a.one" +:+ nl))
    as -> by (vm_compute; reflexivity).
  assert (listed_labels (String TAB "1" +:+ String TAB "-" +:+ String TAB "com.a.one" +:+ nl)
          = ["com.a.one"]) as -> by (vm_compute; reflexivity).
  unfold rows_of, cache_after, details_of. cbn [omap list_omap foldl].
  rewrite Hdetail.
  assert (parse_details "com.a.one" scenario_detail
          = Some (mkJob "com.a.one" "/Library/LaunchAgents/com.a.one.plist" "running"))
    as -> by (vm_compute; reflexivity).
  reflexivity.
Qed.

Lemma load_scenario_one_witness :
  load_data_launchctl tool_one 501 2 ∅
  = (Ok [mkJob "com.a.one" "/Library/LaunchAgents/com.a.one.plist" "running"],
     <["com.a.one" := scenario_detail]> ∅).
Proof.
  apply (load_scenario_one tool_one 501 2 "GUI" ∅); vm_compute; reflexivity.
Defined.

(** What the load makes of the detail texts, in terms of the matches of
    its two patterns as [re.findall] finds them: with the domain valid
    and the marker present it returns rows whatever the detail texts are;
    a label whose detail text has no match of the path pattern has no
    row; when the first match of the path pattern starts with a slash, a
    listed label has the row made of the label, that match and the first
    match of the state pattern, or the empty text without such a match. *)
Lemma load_rows_from_details exec uid idx name j :
  py_index LAUNCHD_DOMAINS idx = Ok name ->
  contains SERVICES_OPEN (exec ["launchctl"; "print"; target_of uid name]) = true ->
  exists rows j' services,
    load_data_launchctl exec uid idx j = (Ok rows, j')
    /\ services_block (exec ["launchctl"; "print"; target_of uid name]) = Ok services
    /\ forall l,
         (Re.findall "path =" (exec (print_job (target_of uid name) l)) = [] ->
          forall r, r ∈ rows -> label r <> l)
         /\ (forall p ps,
               Re.findall "path =" (exec (print_job (target_of uid name) l)) = p :: ps ->
               startswith "/" p = true ->
               (l ∈ listed_labels services ->
                mkJob l p (state_of (exec (print_job (target_of uid name) l))) ∈ rows)
               /\ (forall r, r ∈ rows -> label r = l ->
                   path r = p
                   /\ (forall s ss,
                         Re.findall "state =" (exec (print_job (target_of uid name) l)) = s :: ss ->
                         state r = s)
                   /\ (Re.findall "state =" (exec (print_job (target_of uid name) l)) = [] ->
                       state r = ""))).
Proof.
  intros Hname Hout.
  destruct (services_block_present _ Hout) as [services Hs].
  exists (rows_of exec (target_of uid name) (listed_labels services)),
    (cache_after exec (target_of uid name) (listed_labels services) j), services.
  split; [rewrite load_data_launchctl_eq, Hname; cbv zeta; rewrite Hs; reflexivity|].
  split; [exact Hs|]. intros l. split.
  - intros Hnone r [_ Hr]%rows_of_elem <-.
    apply parse_details_Some in Hr as (p & ps & Hfind & _).
    unfold details_of in Hfind. congruence.
  - intros p ps Hfind Habs. split.
    + intros Hl. apply rows_of_elem. cbn [label]. split; [exact Hl|].
      apply parse_details_Some. exists p, ps. auto.
    + intros r [_ Hr]%rows_of_elem <-.
      apply parse_details_Some in Hr as (p' & ps' & Hfind' & _ & Hr).
      unfold details_of in Hfind', Hr. rewrite Hfind in Hfind'.
      injection Hfind' as <- <-.
      pose proof (f_equal path Hr) as Hp.
      pose proof (f_equal state Hr) as Hst.
      cbn [path state] in Hp, Hst. unfold state_of in Hst.
      split; [exact Hp|].
      split; [intros s ss Hstate | intros Hstate];
        rewrite Hstate in Hst; exact Hst.
Qed.

Lemma load_rows_from_details_witness :
  exists rows j' services,
    load_data_launchctl tool_three 501 2 ∅ = (Ok rows, j')
    /\ services_block (tool_three ["launchctl"; "print"; target_of 501 "GUI"]) = Ok services
    /\ forall l,
         (Re.findall "path =" (tool_three (print_job (target_of 501 "GUI") l)) = [] ->
          forall r, r ∈ rows -> label r <> l)
         /\ (forall p ps,
               Re.findall "path =" (tool_three (print_job (target_of 501 "GUI") l)) = p :: ps ->
               startswith "/" p = true ->
               (l ∈ listed_labels services ->
                mkJob l p (state_of (tool_three (print_job (target_of 501 "GUI") l))) ∈ rows)
               /\ (forall r, r ∈ rows -> label r = l ->
                   path r = p
                   /\ (forall s ss,
                         Re.findall "state =" (tool_three (print_job (target_of 501 "GUI") l)) = s :: ss ->
                         state r = s)
                   /\ (Re.findall "state =" (tool_three (print_job (target_of 501 "GUI") l)) = [] ->
                       state r = ""))).
Proof.
  apply (load_rows_from_details tool_three 501 2 "GUI" ∅); vm_compute; reflexivity.
Defined.

(** C7: the two patterns are anchored per line, but the white-space
    character they ask for after the equals sign may be the line feed
    that ends the line, and the value is then the whole next line.  On
    [detail_path_cut] no line has a path value, yet the load gives the
    label a row with the next line as its path; on [detail_state_cut] no
    line has a state value, yet the state of the row is the next line
    and not the empty text. *)
Theorem path_pattern_crosses_lines :
  spec_first_value "path =" detail_path_cut = None
  /\ fst (load_data_launchctl tool_path_cut 501 2 ∅)
     = Ok [mkJob "com.a.one" "/foo" ""]
  /\ spec_first_value "path =" detail_state_cut = Some "/a.plist"
  /\ spec_first_value "state =" detail_state_cut = None
  /\ fst (load_data_launchctl tool_state_cut 501 2 ∅)
     = Ok [mkJob "com.a.one" "/a.plist" (String TAB "pid = 5")].
Proof. repeat split; vm_compute; reflexivity. Qed.

(** On the detail text of the specification's scenario the patterns and
    the line-by-line reading agree. *)
Example line_reading_scenario :
  spec_first_value "path =" scenario_detail
  = Some "/Library/LaunchAgents/com.a.one.plist"
  /\ Re.findall "path =" scenario_detail
     = ["/Library/LaunchAgents/com.a.one.plist"]
  /\ spec_first_value "state =" scenario_detail = Some "running"
  /\ Re.findall "state =" scenario_detail = ["running"].
Proof. repeat split; vm_compute; reflexivity. Qed.

(** Two detail texts in which no line ends right after an equals sign:
    one without a path line gives no row, one without a state line gives
    the empty state. *)
Example no_path_line_dropped :
  fst (load_data_launchctl
         (canned "system" [("com.a.one", String TAB "state = running" +:+ nl)]) 0 1 ∅)
  = Ok [].
Proof. vm_compute. reflexivity. Qed.

Example no_state_line_empty :
  fst (load_data_launchctl
         (canned "user/0" [("com.a.one", String TAB "path = /a.plist" +:+ nl)]) 0 0 ∅)
  = Ok [mkJob "com.a.one" "/a.plist" ""].
Proof. vm_compute. reflexivity. Qed.

(** C8: a filter followed by the empty filter shows the full snapshot
    again; so the empty filter, a filter and the empty filter in turn
    show what the first empty filter showed. *)
Theorem clear_filter_restores w X :
  window_ok w ->
  view (snd (on_search_changed "" (snd (on_search_changed X w)))) = snapshot w
  /\ view (snd (on_search_changed ""
                  (snd (on_search_changed X (snd (on_search_changed "" w))))))
     = view (snd (on_search_changed "" w)).
Proof.
  intros Hok.
  assert (forall t w', window_ok w' ->
            window_ok (snd (on_search_changed t w'))
            /\ snapshot (snd (on_search_changed t w')) = snapshot w') as Hstep.
  { intros t w' H. split.
    - apply (handle_window_ok (SetFilter t)), H.
    - apply (handle_snapshot (SetFilter t)), H. }
  destruct (Hstep X w Hok) as [HokX HsnapX].
  destruct (Hstep "" w Hok) as [Hok0 Hsnap0].
  destruct (Hstep X _ Hok0) as [Hok0X Hsnap0X].
  rewrite !on_search_changed_view by assumption. cbn [truthy].
  split; congruence.
Qed.

Lemma clear_filter_restores_witness :
  view (snd (on_search_changed "" (snd (on_search_changed "web" window_three))))
  = snapshot window_three
  /\ view (snd (on_search_changed ""
                  (snd (on_search_changed "web"
                          (snd (on_search_changed "" window_three))))))
     = view (snd (on_search_changed "" window_three)).
Proof.
  apply (clear_filter_restores window_three "web").
  split; [reflexivity | discriminate].
Defined.

Lemma sort_view_valid ncol order w :
  -3 <= ncol < 3 ->
  fst (CustomTableModel.sort ncol order w) = Ok tt
  /\ view (snd (CustomTableModel.sort ncol order w))
     = snd <$> arrange (negb (SortOrder_value order =? 0))
                 (keyed (column ncol) <$> view w).
Proof.
  intros H. rewrite sort_eq, sorted_valid by assumption.
  split; [reflexivity|]. unfold view at 1. cbn. apply deref_insert_eq.
Qed.

Lemma sort_view_invalid ncol order w :
  ~ -3 <= ncol < 3 ->
  view (snd (CustomTableModel.sort ncol order w)) = view w.
Proof.
  intros H. rewrite sort_eq, sorted_invalid by assumption.
  destruct (view w) as [|d rows] eqn:E; [|exact E].
  unfold view at 1. cbn. apply deref_insert_eq.
Qed.

(** With a column the rows have, the sort handler raises nothing, loses
    and adds no row, and leaves the rows in ascending order of the
    column, or in descending order. *)
Lemma sort_sorts ncol order w :
  -3 <= ncol < 3 ->
  fst (CustomTableModel.sort ncol order w) = Ok tt
  /\ view (snd (CustomTableModel.sort ncol order w)) ≡ₚ view w
  /\ Sorted key_le
       (match order with
        | AscendingOrder => fun kl => kl
        | DescendingOrder => @rev (string * Job)
        end (keyed (column ncol) <$> view (snd (CustomTableModel.sort ncol order w)))).
Proof.
  intros H. destruct (sort_view_valid ncol order w H) as [Hfst Hview].
  split; [exact Hfst|]. rewrite Hview. split.
  - rewrite arrange_perm, <- list_fmap_compose.
    rewrite (list_fmap_ext _ id (view w)) by reflexivity.
    rewrite list_fmap_id. reflexivity.
  - rewrite arrange_keyed. destruct order; cbn [SortOrder_value negb Z.eqb arrange].
    + apply stable_sort_sorted.
    + rewrite rev_involutive. apply stable_sort_sorted.
Qed.

(** C9: the sort handler is stable: for every value, the rows whose
    sort column has that value keep their order in the view; and sorting
    again by the same column and direction changes nothing. *)
Theorem sort_stable_idempotent w ncol order :
  (forall v,
     rows_with ncol v (view (snd (CustomTableModel.sort ncol order w)))
     = rows_with ncol v (view w))
  /\ view (snd (CustomTableModel.sort ncol order
                  (snd (CustomTableModel.sort ncol order w))))
     = view (snd (CustomTableModel.sort ncol order w)).
Proof.
  destruct (decide (-3 <= ncol < 3)) as [H|H].
  - destruct (sort_view_valid ncol order w H) as [_ Hview].
    destruct (sort_view_valid ncol order
                (snd (CustomTableModel.sort ncol order w)) H) as [_ Hview2].
    split.
    + intros v. unfold rows_with.
      rewrite !(with_key_undecorate (column ncol)), Hview, arrange_keyed,
        arrange_with_key.
      reflexivity.
    + rewrite Hview2, Hview, arrange_keyed, arrange_idemp. reflexivity.
  - rewrite !sort_view_invalid by assumption. split; reflexivity.
Qed.

(** The fixture of C9: two running jobs keep their listing order when
    the table is sorted by state, in either direction. *)
Example sort_by_state_stable :
  label <$> view (snd (CustomTableModel.sort 2 AscendingOrder window_three))
  = ["com.d.off"; "com.c.web"; "com.a.one"]
  /\ label <$> view (snd (CustomTableModel.sort 2 DescendingOrder window_three))
     = ["com.c.web"; "com.a.one"; "com.d.off"].
Proof. split; vm_compute; reflexivity. Qed.

(** C10: whatever filter and sort actions came before, a filter action
    shows the rows of the snapshot in snapshot order, all of them for the
    empty text: the order a sort gave to the view is gone.  The snapshot
    holds the rows of the last load in the order of the listing
    ([init_window_ok], [initialize_data_ok]). *)
Theorem filter_discards_sort w es text :
  window_ok w ->
  view (snd (on_search_changed text (run_events es w)))
  = if truthy text then List.filter (filter_match text) (snapshot w)
    else snapshot w.
Proof.
  intros Hok.
  rewrite on_search_changed_view by (apply run_events_window_ok, Hok).
  rewrite run_events_snapshot by assumption. reflexivity.
Qed.

Lemma filter_discards_sort_witness :
  view (snd (on_search_changed ""
               (run_events [SetSort 0 AscendingOrder] window_three)))
  = if truthy "" then List.filter (filter_match "") (snapshot window_three)
    else snapshot window_three.
Proof.
  apply (filter_discards_sort window_three [SetSort 0 AscendingOrder] "").
  split; [reflexivity | discriminate].
Defined.

(** The fixture of C10: sorted by label the view is in another order
    than the listing; the empty filter brings the listing order back. *)
Example sort_then_clear_filter :
  label <$> view (run_events [SetSort 0 AscendingOrder] window_three)
  = ["com.a.one"; "com.c.web"; "com.d.off"]
  /\ label <$> view (run_events [SetSort 0 AscendingOrder; SetFilter ""] window_three)
     = ["com.c.web"; "com.a.one"; "com.d.off"]
  /\ label <$> snapshot window_three = ["com.c.web"; "com.a.one"; "com.d.off"].
Proof. repeat split; vm_compute; reflexivity. Qed.

End Claims.

(** * More facts about the [str] methods and the patterns *)

Section PieceFacts.
Import PyStr.

Lemma app_assoc_s (a b c : string) : (a +:+ b) +:+ c = a +:+ (b +:+ c).
Proof.
  induction a as [|x a IH]; [reflexivity|].
  rewrite !app_cons, IH. reflexivity.
Qed.

Lemma app_nil_r_s (a : string) : a +:+ "" = a.
Proof.
  induction a as [|x a IH]; [reflexivity|].
  rewrite app_cons, IH. reflexivity.
Qed.

Lemma contains_app_l t a b :
  contains t a = true -> contains t (a +:+ b) = true.
Proof.
  rewrite !contains_spec. intros (pre & post & ->).
  exists pre, (post +:+ b). rewrite !app_assoc_s. reflexivity.
Qed.

Lemma contains_app_r t a b :
  contains t b = true -> contains t (a +:+ b) = true.
Proof.
  rewrite !contains_spec. intros (pre & post & ->).
  exists (a +:+ pre), post. rewrite !app_assoc_s. reflexivity.
Qed.

Lemma startswith_app p a b :
  startswith p a = true -> startswith p (a +:+ b) = true.
Proof.
  rewrite !startswith_spec. intros (r & ->).
  exists (r +:+ b). rewrite app_assoc_s. reflexivity.
Qed.

Lemma strip_prefix_None p s :
  strip_prefix p s = None <-> startswith p s = false.
Proof.
  destruct (startswith p s) eqn:E.
  - apply startswith_strip in E as [r E]. rewrite E. split; discriminate.
  - split; [reflexivity|]. intros _.
    destruct (strip_prefix p s) as [r|] eqn:E'; [|reflexivity].
    assert (startswith p s = true) by (apply startswith_strip; eauto).
    congruence.
Qed.

(** [cut] splits the text around an occurrence of the separator... *)
Lemma cut_spec sep s a b :
  cut sep s = Some (a, b) -> s = a +:+ sep +:+ b.
Proof.
  revert a b; induction s as [|c s IH]; intros a b; cbn [cut].
  - destruct (strip_prefix sep "") as [r|] eqn:E; [|discriminate].
    intros [= <- <-]. apply strip_prefix_Some in E. exact E.
  - destruct (strip_prefix sep (String c s)) as [r|] eqn:E.
    + intros [= <- <-]. apply strip_prefix_Some in E. exact E.
    + destruct (cut sep s) as [[a' b']|] eqn:E'; [|discriminate].
      intros [= <- <-]. rewrite app_cons, <- (IH _ _ eq_refl). reflexivity.
Qed.

(** ... and that occurrence is the first one. *)
Lemma cut_first sep s a b :
  truthy sep = true -> cut sep s = Some (a, b) -> contains sep a = false.
Proof.
  intros Hsep. revert a b; induction s as [|c s IH]; intros a b; cbn [cut].
  - destruct (strip_prefix sep "") as [r|] eqn:E; [|discriminate].
    intros [= <- <-]. destruct sep; [discriminate | reflexivity].
  - destruct (strip_prefix sep (String c s)) as [r|] eqn:E.
    + intros [= <- <-]. destruct sep; [discriminate | reflexivity].
    + destruct (cut sep s) as [[a' b']|] eqn:E'; [|discriminate].
      intros [= <- <-]. cbn [contains]. rewrite (IH _ _ eq_refl), orb_false_r.
      apply strip_prefix_None in E.
      destruct (startswith sep (String c a')) eqn:E2; [|reflexivity].
      apply (startswith_app _ _ (sep +:+ b')) in E2.
      rewrite app_cons, <- (cut_spec _ _ _ _ E') in E2. congruence.
Qed.

(** Induction along the way [split] walks through the text. *)
Lemma split_induction sep (Q : string -> Prop) :
  truthy sep = true ->
  (forall s, (forall a b, cut sep s = Some (a, b) -> Q b) -> Q s) ->
  forall s, Q s.
Proof.
  intros Hsep Hstep s.
  remember (String.length s) as n eqn:Hn. revert s Hn.
  induction n as [n IH] using lt_wf_ind. intros s ->.
  apply Hstep. intros a b Hcut. apply (IH (String.length b)); [|reflexivity].
  apply cut_length in Hcut. destruct sep; [discriminate|]. simpl in Hcut. lia.
Qed.

Lemma split_eq sep s :
  truthy sep = true ->
  split sep s =
  match cut sep s with
  | None => [s]
  | Some (a, b) => a :: split sep b
  end.
Proof.
  destruct sep as [|c sep']; [discriminate|]. intros _. simp split.
  destruct (Logic.inspect (cut (String c sep') s)) as [[[a b]|] H];
    simpl; rewrite H; reflexivity.
Qed.

(** No piece of a split holds the separator. *)
Lemma split_pieces_no_sep sep s p :
  truthy sep = true -> p ∈ split sep s -> contains sep p = false.
Proof.
  intros Hsep. revert p. pattern s. apply (split_induction sep); [assumption|].
  clear s. intros s IH p. rewrite split_eq by assumption.
  destruct (cut sep s) as [[a b]|] eqn:E.
  - intros [->|Hp]%elem_of_cons.
    + eapply cut_first; eassumption.
    + eapply IH; eauto.
  - intros ->%list_elem_of_singleton. apply cut_None. exact E.
Qed.

Lemma all_chars_app P a b :
  all_chars P (a +:+ b) = all_chars P a && all_chars P b.
Proof.
  induction a as [|c a IH]; [reflexivity|].
  rewrite app_cons. cbn [all_chars]. rewrite IH, andb_assoc. reflexivity.
Qed.

(** The pieces of a split are made of characters of the text. *)
Lemma split_pieces_all_chars P sep s p :
  truthy sep = true -> all_chars P s = true -> p ∈ split sep s ->
  all_chars P p = true.
Proof.
  intros Hsep. revert p. pattern s. apply (split_induction sep); [assumption|].
  clear s. intros s IH p Hall. rewrite split_eq by assumption.
  destruct (cut sep s) as [[a b]|] eqn:E.
  - pose proof (cut_spec _ _ _ _ E) as Hs. rewrite Hs in Hall.
    rewrite !all_chars_app, !andb_true_iff in Hall.
    destruct Hall as (Ha & _ & Hb).
    intros [->|Hp]%elem_of_cons; [exact Ha | eapply IH; eauto].
  - intros ->%list_elem_of_singleton. exact Hall.
Qed.

Lemma contains_char_all_chars c s :
  contains (String c "") s = false ->
  all_chars (fun x => negb (Ascii.eqb x c)) s = true.
Proof.
  induction s as [|x s IH]; [reflexivity|]. cbn [contains startswith all_chars].
  rewrite orb_false_iff. intros [Hx Hs]. rewrite (IH Hs), andb_true_r.
  rewrite Ascii.eqb_sym. destruct (Ascii.eqb c x); [discriminate | reflexivity].
Qed.

(** The lines of [splitlines] hold no line boundary. *)
Lemma splitlines_no_linebreak s l :
  l ∈ splitlines s -> all_chars (fun c => negb (is_linebreak c)) l = true.
Proof.
  remember (String.length s) as n eqn:Hn. revert s l Hn.
  induction n as [n IH] using lt_wf_ind. intros [|c s] l ->.
  - intros H. apply not_elem_of_nil in H. contradiction.
  - cbn [splitlines]. destruct (is_linebreak c) eqn:Ec.
    + destruct s as [|d s].
      * intros ->%list_elem_of_singleton. reflexivity.
      * destruct (Ascii.eqb c CR && Ascii.eqb d LF);
          (intros [->|Hl]%elem_of_cons; [reflexivity|]);
          eapply IH; try exact Hl; try reflexivity; simpl; lia.
    + destruct (splitlines s) as [|l0 ls] eqn:Es.
      * intros ->%list_elem_of_singleton. cbn [all_chars]. rewrite Ec. reflexivity.
      * intros [->|Hl]%elem_of_cons.
        -- cbn [all_chars]. rewrite Ec. cbn [negb andb].
           eapply (IH (String.length s)); [simpl; lia | reflexivity|].
           rewrite Es. left.
        -- eapply (IH (String.length s)); [simpl; lia | reflexivity|].
           rewrite Es. right. exact Hl.
Qed.

Lemma dotstar_single_line s g r : Re.dotstar s = (g, r) -> single_line g = true.
Proof.
  revert g r; induction s as [|c s IH]; intros g r; cbn [Re.dotstar].
  - intros [= <- <-]. reflexivity.
  - destruct (Ascii.eqb c LF) eqn:Ec.
    + intros [= <- <-]. reflexivity.
    + destruct (Re.dotstar s) as [g' r'] eqn:E. intros [= <- <-].
      unfold single_line in *. cbn [all_chars]. rewrite Ec, (IH _ _ eq_refl).
      reflexivity.
Qed.

Lemma match_here_single_line key s g b r :
  Re.match_here key s = Some (g, b, r) -> single_line g = true.
Proof.
  intros H. apply Re.spaces1_shorter in H as (s1 & H1 & _).
  unfold Re.key_value in H1.
  destruct (strip_prefix key s1) as [[|c s2]|]; try discriminate.
  destruct (isspace c); [|discriminate].
  destruct (Re.dotstar s2) as [g' r'] eqn:E. injection H1 as <- _ _.
  eapply dotstar_single_line, E.
Qed.

Lemma findall_from_eq key bol s :
  Re.findall_from key bol s =
  match s with
  | EmptyString => []
  | String c s' =>
      if bol then
        match Re.match_here key s with
        | Some (g, b, r) => g :: Re.findall_from key b r
        | None => Re.findall_from key (Ascii.eqb c LF) s'
        end
      else Re.findall_from key (Ascii.eqb c LF) s'
  end.
Proof.
  destruct s as [|c s']; [simp findall_from; reflexivity|].
  destruct bol; simp findall_from; [|reflexivity].
  destruct (Logic.inspect (Re.match_here key (String c s'))) as [[[[g b] r]|] H];
    simpl; rewrite H; reflexivity.
Qed.

(** No value [findall] returns holds a line feed. *)
Lemma findall_from_single_line key bol text g :
  g ∈ Re.findall_from key bol text -> single_line g = true.
Proof.
  revert bol.
  remember (String.length text) as n eqn:Hn. revert text Hn.
  induction n as [n IH] using lt_wf_ind. intros text -> bol.
  rewrite findall_from_eq. destruct text as [|c s'].
  - intros H. apply not_elem_of_nil in H. contradiction.
  - assert (forall b, g ∈ Re.findall_from key b s' -> single_line g = true) as Hnext.
    { intros b. eapply IH; [|reflexivity]. simpl. lia. }
    destruct bol; [|apply Hnext].
    destruct (Re.match_here key (String c s')) as [[[g' b] r]|] eqn:E;
      [|apply Hnext].
    intros [->|Hg]%elem_of_cons.
    + eapply match_here_single_line, E.
    + eapply IH; [|reflexivity|exact Hg].
      apply Re.match_here_shorter in E. exact E.
Qed.

Lemma findall_single_line key text g :
  g ∈ Re.findall key text -> single_line g = true.
Proof. apply findall_from_single_line. Qed.

End PieceFacts.

(** * Further properties of the load *)

Section LoadProperties.
Import PyStr.

Lemma py_index_Ok_iff {A : Type} (l : list A) (i : Z) :
  (exists x, py_index l i = Ok x)
  <-> - Z.of_nat (length l) <= i < Z.of_nat (length l).
Proof.
  unfold py_index.
  destruct (i <? 0) eqn:Ei; [apply Z.ltb_lt in Ei | apply Z.ltb_ge in Ei].
  - destruct ((0 <=? Z.of_nat (length l) + i)
              && (Z.of_nat (length l) + i <? Z.of_nat (length l))) eqn:E.
    + apply andb_true_iff in E as [E1%Z.leb_le E2%Z.ltb_lt].
      destruct (l !! Z.to_nat (Z.of_nat (length l) + i)) as [x|] eqn:El.
      * split; [lia | eauto].
      * apply lookup_ge_None in El. lia.
    + split; [intros [x [=]]|]. intros H.
      apply andb_false_iff in E as [E%Z.leb_gt|E%Z.ltb_ge]; lia.
  - destruct ((0 <=? i) && (i <? Z.of_nat (length l))) eqn:E.
    + apply andb_true_iff in E as [E1%Z.leb_le E2%Z.ltb_lt].
      destruct (l !! Z.to_nat i) as [x|] eqn:El.
      * split; [lia | eauto].
      * apply lookup_ge_None in El. lia.
    + split; [intros [x [=]]|]. intros H.
      apply andb_false_iff in E as [E%Z.leb_gt|E%Z.ltb_ge]; lia.
Qed.

Lemma py_index_elem_of {A : Type} (l : list A) (i : Z) (x : A) :
  py_index l i = Ok x -> x ∈ l.
Proof.
  unfold py_index. destruct (_ && _); [|discriminate].
  destruct (l !! _) as [y|] eqn:E; [|discriminate].
  intros [= <-]. eapply list_elem_of_lookup_2, E.
Qed.

Lemma load_raise_state exec uid idx j e j' :
  load_data_launchctl exec uid idx j = (Raise e, j') -> j' = j.
Proof.
  rewrite load_data_launchctl_eq.
  destruct (py_index LAUNCHD_DOMAINS idx); [|congruence]. cbv zeta.
  destruct (services_block _); [discriminate | congruence].
Qed.

Lemma omap_sublist {A B : Type} (f : A -> option B) (g : B -> A) (l : list A) :
  (forall x y, f x = Some y -> g y = x) -> g <$> omap f l `sublist_of` l.
Proof.
  intros H. induction l as [|x l IH]; [constructor|].
  cbn [omap list_omap]. destruct (f x) as [y|] eqn:E.
  - cbn [fmap list_fmap]. rewrite (H _ _ E). constructor. exact IH.
  - constructor. exact IH.
Qed.

Lemma parse_details_label lbl details r :
  parse_details lbl details = Some r -> label r = lbl.
Proof. intros (p & ps & _ & _ & ->)%parse_details_Some. reflexivity. Qed.

(** X2: the rows of a load come in the order of the listing, at most one
    for each listed line: their labels are a subsequence of the listed
    labels. *)
Theorem load_rows_in_listing_order exec uid idx j rows j' :
  load_data_launchctl exec uid idx j = (Ok rows, j') ->
  exists name services,
    py_index LAUNCHD_DOMAINS idx = Ok name
    /\ services_block (exec ["launchctl"; "print"; target_of uid name]) = Ok services
    /\ label <$> rows `sublist_of` listed_labels services
    /\ (length rows <= length (listed_labels services))%nat.
Proof.
  rewrite load_data_launchctl_eq.
  destruct (py_index LAUNCHD_DOMAINS idx) as [name|e]; [|discriminate].
  cbv zeta.
  destruct (services_block _) as [services|e] eqn:Hs; [|discriminate].
  intros [= <- _]. exists name, services.
  split; [reflexivity|]. split; [exact Hs|].
  assert (label <$> rows_of exec (target_of uid name) (listed_labels services)
          `sublist_of` listed_labels services) as Hsub.
  { apply omap_sublist. intros x y. apply parse_details_label. }
  split; [exact Hsub|].
  apply sublist_length in Hsub. rewrite length_fmap in Hsub. exact Hsub.
Qed.

Lemma load_rows_in_listing_order_witness :
  exists name services,
    py_index LAUNCHD_DOMAINS 2 = Ok name
    /\ services_block (tool_three ["launchctl"; "print"; target_of 501 name]) = Ok services
    /\ label <$> rows_three `sublist_of` listed_labels services
    /\ (length rows_three <= length (listed_labels services))%nat.
Proof.
  apply (load_rows_in_listing_order tool_three 501 2 ∅ rows_three
           (snd (load_data_launchctl tool_three 501 2 ∅))).
  vm_compute. reflexivity.
Defined.

Lemma all_chars_and P Q s :
  all_chars (fun c => P c && Q c) s = all_chars P s && all_chars Q s.
Proof.
  induction s as [|c s IH]; [reflexivity|]. cbn [all_chars]. rewrite IH.
  destruct (P c), (Q c), (all_chars P s), (all_chars Q s); reflexivity.
Qed.

Lemma listed_labels_ok services l :
  l ∈ listed_labels services -> label_ok l = true.
Proof.
  unfold listed_labels.
  intros [Hl Ht]%elem_of_List_filter.
  apply list_elem_of_fmap in Hl as (line & -> & Hline).
  unfold label_ok. rewrite Ht. cbn [andb].
  destruct (last (split (String TAB "") line)) as [p|] eqn:Hlast;
    [|discriminate]. cbn [default] in *.
  assert (p ∈ split (String TAB "") line) as Hp.
  { apply last_Some in Hlast as [l' ->]. apply elem_of_app. right. left. }
  rewrite all_chars_and. apply andb_true_iff. split.
  - apply (split_pieces_all_chars _ (String TAB "") line p);
      [reflexivity| |exact Hp].
    apply splitlines_no_linebreak in Hline. exact Hline.
  - apply contains_char_all_chars.
    apply (split_pieces_no_sep (String TAB "") line p); [reflexivity | exact Hp].
Qed.

Lemma parse_details_row_ok lbl details r :
  label_ok lbl = true -> parse_details lbl details = Some r -> row_ok r.
Proof.
  intros Hl (p & ps & Hfind & Hp & ->)%parse_details_Some.
  unfold row_ok. cbn [label path state].
  split; [exact Hl|]. split; [exact Hp|]. split.
  - apply (findall_single_line "path =" details). rewrite Hfind. left.
  - unfold state_of. destruct (Re.findall "state =" details) as [|s ss] eqn:E;
      [reflexivity|].
    apply (findall_single_line "state =" details). rewrite E. left.
Qed.

(** X3: every row of a load is well formed: the label is not empty and
    has no tab and no line boundary, the path starts with a slash, and
    neither path nor state holds a line feed. *)
Theorem load_rows_ok exec uid idx j rows j' :
  load_data_launchctl exec uid idx j = (Ok rows, j') ->
  forall r, r ∈ rows -> row_ok r.
Proof.
  rewrite load_data_launchctl_eq.
  destruct (py_index LAUNCHD_DOMAINS idx) as [name|e]; [|discriminate].
  cbv zeta.
  destruct (services_block _) as [services|e]; [|discriminate].
  intros [= <- _] r [Hl Hr]%rows_of_elem.
  eapply parse_details_row_ok; [|exact Hr].
  eapply listed_labels_ok, Hl.
Qed.

Lemma load_rows_ok_witness :
  fst (load_data_launchctl tool_three 501 2 ∅) = Ok rows_three
  /\ forall r, r ∈ rows_three -> row_ok r.
Proof.
  split; [vm_compute; reflexivity|].
  apply (load_rows_ok tool_three 501 2 ∅ rows_three
           (snd (load_data_launchctl tool_three 501 2 ∅))).
  vm_compute. reflexivity.
Defined.

End LoadProperties.

Section BlockProperties.
Import PyStr.

Lemma split_first_piece sep s :
  truthy sep = true ->
  exists a rest post,
    split sep s = a :: rest
    /\ s = a +:+ post
    /\ contains sep a = false
    /\ (post = "" \/ startswith sep post = true).
Proof.
  intros Hsep. rewrite split_eq by assumption.
  destruct (cut sep s) as [[a b]|] eqn:E.
  - exists a, (split sep b), (sep +:+ b).
    split; [reflexivity|]. split; [eapply cut_spec, E|].
    split; [eapply cut_first; eassumption|].
    right. apply startswith_spec. eauto.
  - exists s, [], "". split; [reflexivity|].
    split; [symmetry; apply app_nil_r_s|].
    split; [apply cut_None, E | left; reflexivity].
Qed.

(** X4: the services block is the text right after the first opening
    marker of the output, up to the next closing marker, the next opening
    marker or the end of the output, whichever comes first. *)
Theorem services_block_spec out block :
  services_block out = Ok block ->
  exists pre post,
    out = pre +:+ SERVICES_OPEN +:+ block +:+ post
    /\ contains SERVICES_OPEN pre = false
    /\ contains SERVICES_OPEN block = false
    /\ contains SERVICES_CLOSE block = false
    /\ (post = ""
        \/ startswith SERVICES_CLOSE post = true
        \/ startswith SERVICES_OPEN post = true).
Proof.
  unfold services_block. rewrite (split_eq SERVICES_OPEN) by reflexivity.
  destruct (cut SERVICES_OPEN out) as [[pre r1]|] eqn:Hcut; [|discriminate].
  destruct (split_first_piece SERVICES_OPEN r1 eq_refl)
    as (a1 & rest1 & post1 & -> & Hr1 & Hno1 & Hpost1).
  rewrite py_index_1. cbn [mbind result_bind].
  destruct (split_first_piece SERVICES_CLOSE a1 eq_refl)
    as (a2 & rest2 & post2 & -> & Ha1 & Hno2 & Hpost2).
  rewrite py_index_0. intros [= <-].
  exists pre, (post2 +:+ post1). split; [|split; [|split; [|split]]].
  - rewrite (cut_spec _ _ _ _ Hcut), Hr1, Ha1, !app_assoc_s. reflexivity.
  - eapply cut_first; [reflexivity | exact Hcut].
  - destruct (contains SERVICES_OPEN a2) eqn:E; [|reflexivity].
    apply (contains_app_l _ _ post2) in E. congruence.
  - exact Hno2.
  - destruct Hpost2 as [->|Hpost2].
    + destruct Hpost1 as [->|Hpost1]; [left; reflexivity|].
      right. right. exact Hpost1.
    + right. left. apply startswith_app. exact Hpost2.
Qed.

Lemma services_block_spec_witness :
  exists pre post,
    scenario_listing
    = pre +:+ SERVICES_OPEN
      +:+ (String TAB "1" +:+ String TAB "-" +:+ String TAB "com.a.one" +:+ nl)
      +:+ post
    /\ contains SERVICES_OPEN pre = false
    /\ contains SERVICES_OPEN
         (String TAB "1" +:+ String TAB "-" +:+ String TAB "com.a.one" +:+ nl) = false
    /\ contains SERVICES_CLOSE
         (String TAB "1" +:+ String TAB "-" +:+ String TAB "com.a.one" +:+ nl) = false
    /\ (post = ""
        \/ startswith SERVICES_CLOSE post = true
        \/ startswith SERVICES_OPEN post = true).
Proof.
  apply (services_block_spec scenario_listing). vm_compute. reflexivity.
Defined.

End BlockProperties.

(** * Refresh *)

Section RefreshProperties.

Lemma load_rows_cache_free exec uid idx j1 j2 :
  fst (load_data_launchctl exec uid idx j1)
  = fst (load_data_launchctl exec uid idx j2).
Proof.
  rewrite !load_data_launchctl_eq.
  destruct (py_index LAUNCHD_DOMAINS idx); [|reflexivity]. cbv zeta.
  destruct (services_block _); reflexivity.
Qed.

Lemma cache_after_idemp exec target lbls j :
  cache_after exec target lbls (cache_after exec target lbls j)
  = cache_after exec target lbls j.
Proof.
  apply map_eq. intros l. rewrite !cache_after_lookup.
  destruct (decide (l ∈ lbls)); reflexivity.
Qed.

(** X6: refreshing twice on the same answers of the tool is refreshing
    once: the second refresh changes nothing, neither rows nor cache. *)
Theorem initialize_data_idempotent exec uid idx w :
  initialize_data exec uid idx (snd (initialize_data exec uid idx w))
  = initialize_data exec uid idx w.
Proof.
  destruct (load_data_launchctl exec uid idx (jobs w)) as [[rows|e] j] eqn:Hload.
  - assert (initialize_data exec uid idx w
            = (Ok tt,
               mkWindow j
                 (<[data_all w := rows]> (<[data w := rows]> (lists w)))
                 (data w) (data_all w) (arraydata w))) as Hw.
    { unfold initialize_data, try_except, mbind, M_bind, on_jobs.
      rewrite Hload. unfold slice_assign, modify, read_list, gets. cbn.
      rewrite deref_insert_eq. reflexivity. }
    rewrite Hw. cbn [snd].
    unfold initialize_data at 1, try_except, mbind, M_bind, on_jobs. cbn [jobs].
    assert (load_data_launchctl exec uid idx j = (Ok rows, j)) as ->.
    { pose proof (load_rows_cache_free exec uid idx j (jobs w)) as Hrows.
      rewrite Hload in Hrows. cbn [fst] in Hrows.
      rewrite load_data_launchctl_eq in Hload, Hrows |- *.
      destruct (py_index LAUNCHD_DOMAINS idx); [|discriminate]. cbv zeta in *.
      destruct (services_block _); [|discriminate].
      injection Hload as <- <-. rewrite cache_after_idemp. reflexivity. }
    unfold slice_assign, modify, read_list, gets. cbn.
    rewrite deref_insert_eq. f_equal. f_equal.
    apply map_eq. intros k. rewrite !lookup_insert.
    repeat case_decide; congruence.
  - pose proof (load_raise_state _ _ _ _ _ _ Hload) as ->.
    rewrite (initialize_data_raise exec uid idx w e Hload). cbn [snd].
    apply (initialize_data_raise exec uid idx w e Hload).
Qed.

End RefreshProperties.

(** * What holds in every window of a session *)

Section SessionProperties.
Import PyStr.


Lemma load_rows_sound exec uid idx j rows j' :
  load_data_launchctl exec uid idx j = (Ok rows, j') ->
  forall r, r ∈ rows ->
    exists d, j' !! label r = Some d /\ parse_details (label r) d = Some r.
Proof.
  rewrite load_data_launchctl_eq.
  destruct (py_index LAUNCHD_DOMAINS idx) as [name|e]; [|discriminate].
  cbv zeta.
  destruct (services_block _) as [services|e]; [|discriminate].
  intros [= <- <-] r [Hl Hr]%rows_of_elem.
  exists (details_of exec (target_of uid name) (label r)).
  split; [|exact Hr]. rewrite cache_after_lookup, decide_True by assumption.
  reflexivity.
Qed.

Lemma sort_view_perm ncol order w :
  view (snd (CustomTableModel.sort ncol order w)) ≡ₚ view w.
Proof.
  destruct (decide (-3 <= ncol < 3)) as [H|H].
  - destruct (sort_view_valid ncol order w H) as [_ ->].
    rewrite arrange_perm, <- list_fmap_compose.
    rewrite (list_fmap_ext _ id (view w)) by reflexivity.
    rewrite list_fmap_id. reflexivity.
  - rewrite sort_view_invalid by assumption. reflexivity.
Qed.

Lemma List_filter_sublist {A : Type} (f : A -> bool) (l : list A) :
  List.filter f l `sublist_of` l.
Proof.
  induction l as [|x l IH]; [constructor|]. cbn [List.filter].
  destruct (f x); constructor; exact IH.
Qed.










End SessionProperties.

(** * Sorting and filtering *)

Section TableProperties.
Import PyStr.

Lemma Sorted_keyed {A : Type} (key : A -> string)
  (R : string -> string -> Prop) (l : list A) :
  Sorted (fun x y => R (fst x) (fst y)) (keyed key <$> l) ->
  Sorted (fun a b => R (key a) (key b)) l.
Proof.
  induction l as [|a l IH]; [constructor|]. cbn [fmap list_fmap].
  intros H. inversion_clear H as [|? ? Hl Ha]. constructor; [apply IH, Hl|].
  destruct l as [|b l]; constructor. inversion_clear Ha. assumption.
Qed.

(** X12: with a column the rows have, [sort] raises nothing, shows the
    same rows as before, and leaves them ordered by the text of that
    column, compared code point by code point: ascending for
    [AscendingOrder], descending for [DescendingOrder]. *)
Theorem sort_orders_view ncol order w :
  -3 <= ncol < 3 ->
  fst (CustomTableModel.sort ncol order w) = Ok tt
  /\ view (snd (CustomTableModel.sort ncol order w)) ≡ₚ view w
  /\ Sorted
       (fun a b =>
          match order with
          | AscendingOrder => String.leb (column ncol a) (column ncol b)
          | DescendingOrder => String.leb (column ncol b) (column ncol a)
          end = true)
       (view (snd (CustomTableModel.sort ncol order w))).
Proof.
  intros H. destruct (sort_view_valid ncol order w H) as [Hfst Hview].
  split; [exact Hfst|]. split; [apply sort_view_perm|].
  rewrite Hview.
  destruct order; cbn [SortOrder_value Z.eqb negb].
  - apply (Sorted_keyed (column ncol) (fun k1 k2 => String.leb k1 k2 = true)).
    rewrite arrange_keyed. cbn [arrange]. apply stable_sort_sorted.
  - apply (Sorted_keyed (column ncol) (fun k1 k2 => String.leb k2 k1 = true)).
    rewrite arrange_keyed. cbn [arrange].
    pose proof (stable_sort_sorted (rev (keyed (column ncol) <$> view w))) as Hs.
    apply Sorted_reverse in Hs. unfold reverse in Hs.
    rewrite <- rev_alt in Hs. exact Hs.
Qed.

Lemma sort_orders_view_witness :
  fst (CustomTableModel.sort 0 DescendingOrder window_three) = Ok tt
  /\ view (snd (CustomTableModel.sort 0 DescendingOrder window_three))
     ≡ₚ view window_three
  /\ Sorted
       (fun a b =>
          match DescendingOrder with
          | AscendingOrder => String.leb (column 0 a) (column 0 b)
          | DescendingOrder => String.leb (column 0 b) (column 0 a)
          end = true)
       (view (snd (CustomTableModel.sort 0 DescendingOrder window_three))).
Proof. apply (sort_orders_view 0 DescendingOrder window_three). lia. Defined.

(** X13: the columns [sort] accepts are those Python accepts as an index
    on three fields.  A negative column counts from the last field, so
    that column [-1] sorts by state; any other column raises [IndexError]
    and leaves the window as it was, unless no row is shown. *)
Theorem sort_column_range ncol order w :
  (-3 <= ncol < 0 ->
   CustomTableModel.sort ncol order w = CustomTableModel.sort (ncol + 3) order w)
  /\ (~ -3 <= ncol < 3 -> view w <> [] ->
      CustomTableModel.sort ncol order w = (Raise IndexError, w))
  /\ (~ -3 <= ncol < 3 -> view w = [] ->
      fst (CustomTableModel.sort ncol order w) = Ok tt
      /\ view (snd (CustomTableModel.sort ncol order w)) = []).
Proof.
  split; [|split].
  - intros H. rewrite !sort_eq, !sorted_valid by lia.
    assert (forall d, column ncol d = column (ncol + 3) d) as Hcol.
    { intros d.
      assert (ncol = -3 \/ ncol = -2 \/ ncol = -1) as [->|[->| ->]] by lia;
        reflexivity. }
    rewrite (list_fmap_ext (keyed (column ncol)) (keyed (column (ncol + 3))) (view w))
      by (intros; unfold keyed; rewrite Hcol; reflexivity).
    reflexivity.
  - intros H Hne. rewrite sort_eq, sorted_invalid by assumption.
    destruct (view w); [congruence | reflexivity].
  - intros H He. rewrite sort_eq, sorted_invalid by assumption.
    rewrite He. split; [reflexivity|]. unfold view. cbn.
    apply deref_insert_eq.
Qed.

Lemma sort_column_range_witness :
  (CustomTableModel.sort (-1) AscendingOrder window_three
   = CustomTableModel.sort (-1 + 3) AscendingOrder window_three)
  /\ CustomTableModel.sort 3 AscendingOrder window_three
     = (Raise IndexError, window_three).
Proof.
  destruct (sort_column_range (-1) AscendingOrder window_three) as [H1 _].
  destruct (sort_column_range 3 AscendingOrder window_three) as (_ & H2 & _).
  split; [apply H1; lia | apply H2; [lia | discriminate]].
Defined.

Lemma truthy_lower text : truthy (lower text) = truthy text.
Proof. destruct text; reflexivity. Qed.

Lemma filter_match_lower text d :
  filter_match text d = true -> filter_match (lower text) d = true.
Proof.
  unfold filter_match. rewrite lower_idemp, !orb_true_iff.
  intros [H|H]; [left; exact H|]. right.
  rewrite (contains_lower_fixed _ _ H). exact H.
Qed.

(** X14: typing the search text in lower case never loses a row: every
    row shown for a text is also shown, in the same order, for the text in
    lower case. *)
Theorem search_lower_case_shows_more w text :
  window_ok w ->
  view (snd (on_search_changed text w))
  `sublist_of` view (snd (on_search_changed (lower text) w)).
Proof.
  intros Hok. rewrite !on_search_changed_view by assumption.
  rewrite truthy_lower. destruct (truthy text); [|reflexivity].
  apply List_filter_sublist_impl. intros d. apply filter_match_lower.
Qed.

Lemma search_lower_case_shows_more_witness :
  view (snd (on_search_changed "System" window_three))
  `sublist_of` view (snd (on_search_changed (lower "System") window_three)).
Proof.
  apply (search_lower_case_shows_more window_three "System").
  split; [reflexivity | discriminate].
Defined.

(** X15: for a text with a capital letter the rows shown are exactly
    those whose label contains the text when case is ignored: such a text
    finds nothing through the path. *)
Theorem search_capital_text_label_only w text :
  window_ok w ->
  lower text <> text ->
  view (snd (on_search_changed text w))
  = List.filter (fun d => contains (lower text) (lower (label d))) (snapshot w).
Proof.
  intros Hok Hcap. rewrite on_search_changed_view by assumption.
  assert (truthy text = true) as ->
    by (destruct text; [exfalso; apply Hcap; reflexivity | reflexivity]).
  induction (snapshot w) as [|d l IH]; [reflexivity|].
  cbn [List.filter]. rewrite IH, (filter_match_capital text d Hcap).
  reflexivity.
Qed.

Lemma search_capital_text_label_only_witness :
  view (snd (on_search_changed "System" window_three))
  = List.filter (fun d => contains (lower "System") (lower (label d)))
      (snapshot window_three).
Proof.
  apply (search_capital_text_label_only window_three "System").
  - split; [reflexivity | discriminate].
  - vm_compute. discriminate.
Defined.

End TableProperties.

(** * Warnings, the editor command and the cells *)

Section HandlerProperties.
Import PyStr.

Lemma truthy_app a b : truthy (a +:+ b) = truthy a || truthy b.
Proof. destruct a; [destruct b|]; reflexivity. Qed.

(** X16: the warning box never shows its message argument: it shows two
    line feeds followed by the error text, or nothing when both texts are
    empty.  So a job action without a selection shows two line feeds and
    not the request to select a job. *)
Theorem show_gui_error_drops_msg msg error_text :
  show_gui_error msg error_text
  = (if truthy msg || truthy error_text then nl +:+ nl +:+ error_text else "")
  /\ forall args w, run_job_action args [] w = Ok (Warned (nl +:+ nl)).
Proof.
  split.
  - unfold show_gui_error. cbv zeta. rewrite truthy_app.
    destruct (truthy msg || truthy error_text) eqn:E; [reflexivity|].
    apply orb_false_iff in E as [Hm He].
    destruct msg; [|discriminate]. destruct error_text; [|discriminate].
    reflexivity.
  - intros args w. reflexivity.
Qed.

Lemma str_split_truthy s x : x ∈ str_split s -> truthy x = true.
Proof.
  revert x; induction s as [|c s IH]; intros x; cbn [str_split].
  - intros H. apply not_elem_of_nil in H. contradiction.
  - destruct (isspace c); [apply IH|].
    destruct s as [|d s'].
    + intros ->%list_elem_of_singleton. reflexivity.
    + destruct (isspace d).
      * intros [->|H]%elem_of_cons; [reflexivity | apply IH, H].
      * destruct (str_split (String d s')) as [|w ws].
        -- intros ->%list_elem_of_singleton. reflexivity.
        -- intros [->|H]%elem_of_cons; [reflexivity|].
           apply IH. right. exact H.
Qed.

Lemma str_split_not_nil s :
  contains "-" s = true -> str_split s <> [].
Proof.
  induction s as [|c s IH]; [discriminate|].
  cbn [contains startswith str_split].
  destruct (isspace c) eqn:Ec.
  - destruct (Ascii.eqb "-" c) eqn:E.
    + apply Ascii.eqb_eq in E as <-. discriminate.
    + cbn [orb]. exact IH.
  - intros _. destruct s as [|d s']; [discriminate|].
    destruct (isspace d); [discriminate|].
    destruct (str_split (String d s')); discriminate.
Qed.

Lemma start_file_last editor filepath :
  last (snd (start_file editor filepath)) = Some filepath.
Proof.
  unfold start_file. cbv zeta. cbn [snd].
  destruct (String.eqb _ "system"); [reflexivity|].
  destruct (startswith "/" _); [reflexivity|].
  destruct (contains "-" _); [apply last_snoc | reflexivity].
Qed.

(** X17: whatever the editor setting, the command to open a file names a
    program that is not the empty text and has the file as its last
    argument; an empty setting counts as [system] and is replaced by it. *)
Theorem start_file_command editor filepath :
  last (snd (start_file editor filepath)) = Some filepath
  /\ (exists prog rest,
        snd (start_file editor filepath) = prog :: rest ++ [filepath]
        /\ truthy prog = true)
  /\ fst (start_file editor filepath)
     = (if truthy editor then editor else "system")
  /\ start_file "" filepath = start_file "system" filepath.
Proof.
  unfold start_file. cbv zeta. cbn [fst snd].
  set (ed := if truthy editor then editor else "system").
  assert (truthy ed = true) as Hed by (subst ed; destruct editor; reflexivity).
  split; [apply start_file_last|]. split; [|split; reflexivity].
  destruct (String.eqb ed "system"); [exists "open", []; auto|].
  destruct (startswith "/" ed); [exists ed, []; auto|].
  destruct (contains "-" ed) eqn:E; [|exists "open", ["-a"; ed]; auto].
  pose proof (str_split_not_nil ed E) as Hne.
  destruct (str_split ed) as [|prog rest] eqn:Es; [congruence|].
  exists prog, rest. split; [reflexivity|].
  apply (str_split_truthy ed). rewrite Es. left.
Qed.

(** X18: the handler that opens the file of a job.  A row index of 0 is
    taken as no row given, so that the selection decides; without row and
    without selection nothing is opened.  A command is run only for a row
    that is shown and whose file exists, and it ends with the path of that
    row. *)
Theorem open_linked_file_cases file_exists editor selected w :
  window_ok w ->
  on_open_linked_file file_exists editor (Some 0) selected w
  = on_open_linked_file file_exists editor None selected w
  /\ on_open_linked_file file_exists editor None [] w
     = Ok (editor, Warned (nl +:+ nl +:+ "Please select a message first!"))
  /\ forall row_index editor' argv,
       on_open_linked_file file_exists editor row_index selected w
       = Ok (editor', Ran argv) ->
       exists r,
         r ∈ view w
         /\ file_exists (path r) = true
         /\ last argv = Some (path r).
Proof.
  intros [Ha _]. split; [reflexivity|]. split; [reflexivity|].
  intros row_index editor' argv. unfold on_open_linked_file. cbv zeta.
  destruct (match match row_index with
                  | Some i => if i =? 0 then None else Some i
                  | None => None
                  end with
            | Some i => Some i
            | None => match selected with
                      | [] => None
                      | i :: _ => Some i
                      end
            end) as [i|]; [|discriminate].
  destruct (py_index (deref (lists w) (data w)) i) as [r|e] eqn:Hi;
    [|discriminate].
  cbn [mbind result_bind].
  destruct (truthy (path r) && file_exists (path r)) eqn:E; [|discriminate].
  apply andb_true_iff in E as [_ E].
  pose proof (start_file_last editor (path r)) as Hlast.
  destruct (start_file editor (path r)) as [ed' argv'].
  intros [= <- <-]. exists r.
  split; [|auto]. unfold view. rewrite Ha. eapply py_index_elem_of, Hi.
Qed.

Lemma open_linked_file_cases_witness :
  on_open_linked_file (fun _ => true) "system" (Some 0) [1] window_three
  = on_open_linked_file (fun _ => true) "system" None [1] window_three
  /\ on_open_linked_file (fun _ => true) "system" None [] window_three
     = Ok ("system", Warned (nl +:+ nl +:+ "Please select a message first!"))
  /\ forall row_index editor' argv,
       on_open_linked_file (fun _ => true) "system" row_index [1] window_three
       = Ok (editor', Ran argv) ->
       exists r,
         r ∈ view window_three
         /\ (fun _ : string => true) (path r) = true
         /\ last argv = Some (path r).
Proof.
  apply (open_linked_file_cases (fun _ => true) "system" [1] window_three).
  split; [reflexivity | discriminate].
Defined.

End HandlerProperties.

Section CellProperties.

Lemma cell_in_range row column w :
  0 <= row -> 0 <= column ->
  forall s,
    cell row column w = Ok s
    <-> exists r,
          view w !! Z.to_nat row = Some r
          /\ [label r; path r; state r] !! Z.to_nat column = Some s.
Proof.
  intros Hr Hc s. unfold cell, view, py_index.
  replace (row <? 0) with false by (symmetry; apply Z.ltb_ge; lia).
  replace (column <? 0) with false by (symmetry; apply Z.ltb_ge; lia).
  replace (0 <=? row) with true by (symmetry; apply Z.leb_le; lia).
  replace (0 <=? column) with true by (symmetry; apply Z.leb_le; lia).
  cbn [andb].
  destruct (row <? _) eqn:Er.
  - destruct (deref (lists w) (arraydata w) !! Z.to_nat row) as [r|] eqn:El.
    + cbn [mbind result_bind].
      destruct (column <? _) eqn:Ec.
      * destruct ([label r; path r; state r] !! Z.to_nat column) as [v|] eqn:Ev.
        -- split; [intros [= <-]; eauto|].
           intros (r' & [= <-] & Hv). congruence.
        -- split; [discriminate|]. intros (r' & [= <-] & Hv). congruence.
      * split; [discriminate|]. intros (r' & [= <-] & Hv).
        apply lookup_lt_Some in Hv. apply Z.ltb_ge in Ec. lia.
    + split; [discriminate | intros (r' & [=] & _)].
  - split; [discriminate|]. intros (r' & Hl & _).
    apply lookup_lt_Some in Hl. apply Z.ltb_ge in Er. lia.
Qed.

(** X19: [data] raises nothing.  It returns a text only for a valid index
    and the display role, and then the text is the field of the row shown
    at that place; an index outside the rows or fields gives [None]; every
    other role, the alignment role too, gets an empty value. *)
Theorem model_data_cases valid row column role w :
  exists v,
    model_data valid row column role w = Ok v
    /\ v <> AlignLeft
    /\ (forall s, v = Text s <->
          valid = true /\ role = DisplayRole /\ cell row column w = Ok s)
    /\ (v = PyNone <->
          valid = true /\ role = DisplayRole
          /\ cell row column w = Raise IndexError)
    /\ (0 <= row -> 0 <= column -> forall s,
          cell row column w = Ok s
          <-> exists r,
                view w !! Z.to_nat row = Some r
                /\ [label r; path r; state r] !! Z.to_nat column = Some s).
Proof.
  unfold model_data. destruct valid; cbn [negb andb].
  - destruct (role =? DisplayRole) eqn:E; cbn [negb].
    + apply Z.eqb_eq in E as ->. cbn [Z.eqb DisplayRole TextAlignmentRole DecorationRole].
      destruct (cell row column w) as [s|[]] eqn:Ec.
      * exists (Text s). split; [reflexivity|]. split; [discriminate|].
        split; [|split; [|rewrite <- Ec; apply cell_in_range]].
        -- intros s'. split; [intros [= <-]; auto | intros (_ & _ & [= <-]); reflexivity].
        -- split; [discriminate | intros (_ & _ & [=])].
      * exists PyNone. split; [reflexivity|]. split; [discriminate|].
        split; [|split; [|rewrite <- Ec; apply cell_in_range]].
        -- intros s'. split; [discriminate | intros (_ & _ & [=])].
        -- split; auto.
    + exists QVariant_empty. split; [reflexivity|]. split; [discriminate|].
      apply Z.eqb_neq in E.
      split; [|split; [|apply cell_in_range]].
      * intros s. split; [discriminate | intros (_ & ? & _); congruence].
      * split; [discriminate | intros (_ & ? & _); congruence].
  - exists QVariant_empty. split; [reflexivity|]. split; [discriminate|].
    split; [|split; [|apply cell_in_range]].
    + intros s. split; [discriminate | intros ([=] & _)].
    + split; [discriminate | intros ([=] & _)].
Qed.

End CellProperties.

(** * Settings *)

Section SettingsProperties.
Import PyStr.

(** X20: what [write_settings] saves, [read_settings] reads back: the
    domain index and the toolbar flag as they were, the editor as it was
    or [system] for the empty text, so that the editor read is never
    empty.  The two sort keys are not written: they read as they did
    before. *)
Theorem settings_round_trip conv pos size p settings :
  (forall z, to_int conv (QInt z) = z) ->
  (forall b, to_bool conv (QBool b) = b) ->
  (forall s, to_str conv (QStr s) = s) ->
  domain_id (read_settings conv (write_settings pos size p settings))
  = domain_id p
  /\ is_toolbar_hidden (read_settings conv (write_settings pos size p settings))
     = is_toolbar_hidden p
  /\ editor (read_settings conv (write_settings pos size p settings))
     = (if truthy (editor p) then editor p else DEFAULT_EDITOR)
  /\ truthy (editor (read_settings conv (write_settings pos size p settings)))
     = true
  /\ last_saved_sort_column (read_settings conv (write_settings pos size p settings))
     = last_saved_sort_column (read_settings conv settings)
  /\ last_saved_sort_order (read_settings conv (write_settings pos size p settings))
     = last_saved_sort_order (read_settings conv settings).
Proof.
  intros Hint Hbool Hstr.
  unfold read_settings, write_settings, contains_and_value_or. cbv zeta.
  cbn [domain_id is_toolbar_hidden editor last_saved_sort_column
         last_saved_sort_order].
  rewrite lookup_insert_eq, Hint.
  rewrite (lookup_insert_ne _ "domain_id" "editor") by discriminate.
  rewrite lookup_insert_eq, Hstr.
  do 2 rewrite (lookup_insert_ne _ _ "is_toolbar_hidden") by discriminate.
  rewrite lookup_insert_eq, Hbool.
  do 5 rewrite (lookup_insert_ne _ _ "last_saved_sort_column") by discriminate.
  do 5 rewrite (lookup_insert_ne _ _ "last_saved_sort_order") by discriminate.
  split; [destruct (domain_id p =? 0) eqn:E; cbn [negb id];
          [apply Z.eqb_eq in E; congruence | reflexivity]|].
  split; [destruct (is_toolbar_hidden p); reflexivity|].
  split; [reflexivity|].
  split; [destruct (editor p); reflexivity|].
  split; reflexivity.
Qed.

Lemma settings_round_trip_witness :
  domain_id (read_settings plain_conversions
               (write_settings (100, 150) (500, 660)
                  (mkPrefs None None 0 true "") ∅))
  = domain_id (mkPrefs None None 0 true "")
  /\ is_toolbar_hidden (read_settings plain_conversions
                          (write_settings (100, 150) (500, 660)
                             (mkPrefs None None 0 true "") ∅))
     = is_toolbar_hidden (mkPrefs None None 0 true "")
  /\ editor (read_settings plain_conversions
               (write_settings (100, 150) (500, 660)
                  (mkPrefs None None 0 true "") ∅))
     = (if truthy (editor (mkPrefs None None 0 true ""))
        then editor (mkPrefs None None 0 true "") else DEFAULT_EDITOR)
  /\ truthy (editor (read_settings plain_conversions
                       (write_settings (100, 150) (500, 660)
                          (mkPrefs None None 0 true "") ∅)))
     = true
  /\ last_saved_sort_column (read_settings plain_conversions
                               (write_settings (100, 150) (500, 660)
                                  (mkPrefs None None 0 true "") ∅))
     = last_saved_sort_column (read_settings plain_conversions ∅)
  /\ last_saved_sort_order (read_settings plain_conversions
                              (write_settings (100, 150) (500, 660)
                                 (mkPrefs None None 0 true "") ∅))
     = last_saved_sort_order (read_settings plain_conversions ∅).
Proof.
  apply (settings_round_trip plain_conversions (100, 150) (500, 660)
           (mkPrefs None None 0 true "") ∅); reflexivity.
Defined.

End SettingsProperties.

(** * Loads and sessions on a tool that can fail *)

Section FailingTool.
Import PyStr.

Lemma load_line_x_eq tool target data line j :
  load_line_x tool target data line j =
  let lbl := default "" (last (split (String TAB "") line)) in
  if truthy lbl then
    match tool (print_job target lbl) with
    | Some details =>
        (Ok_x (data ++ option_list (parse_details lbl details)),
         <[lbl := details]> j)
    | None => (Raise_x ExecError_x, j)
    end
  else (Ok_x data, j).
Proof.
  unfold load_line_x.
  rewrite (py_index_last _ "") by (apply split_not_nil; reflexivity).
  cbv zeta. unfold mbind, Mx_bind, lift_M, of_result, exec_x.
  destruct (truthy _); [|reflexivity].
  destruct (tool _) as [details|]; [|reflexivity].
  unfold modify. rewrite <- first_or_parse.
  destruct (first_or (Re.findall "path =" _) Some None) as [p|];
    [|rewrite app_nil_r; reflexivity].
  destruct (startswith "/" p); [reflexivity|].
  rewrite app_nil_r. reflexivity.
Qed.

Lemma for_each_load_line_x tool target lines data j :
  for_each_x lines (load_line_x tool target) data j =
  load_labels_x tool target
    (List.filter truthy
       ((fun line => default "" (last (split (String TAB "") line))) <$> lines))
    data j.
Proof.
  revert data j; induction lines as [|line lines IH]; intros data j.
  - reflexivity.
  - cbn [for_each_x]. unfold mbind at 1, Mx_bind at 1.
    rewrite load_line_x_eq. cbv zeta. cbn [fmap list_fmap List.filter].
    destruct (truthy (default "" (last (split (String TAB "") line)))).
    + cbn [load_labels_x]. destruct (tool _); [apply IH | reflexivity].
    + apply IH.
Qed.

Lemma load_data_launchctl_x_eq tool uid idx j :
  load_data_launchctl_x tool uid idx j =
  match py_index LAUNCHD_DOMAINS idx with
  | Raise _ => (Raise_x IndexError_x, j)
  | Ok name =>
      let target := target_of uid name in
      match tool ["launchctl"; "print"; target] with
      | None => (Raise_x ExecError_x, j)
      | Some out =>
          match services_block out with
          | Raise _ => (Raise_x IndexError_x, j)
          | Ok services =>
              load_labels_x tool target (listed_labels services) [] j
          end
      end
  end.
Proof.
  unfold load_data_launchctl_x, mbind, Mx_bind, lift_M, of_result, exec_x.
  destruct (py_index LAUNCHD_DOMAINS idx) as [name|[]]; [|reflexivity].
  cbv zeta. destruct (tool _) as [out|]; [|reflexivity].
  destruct (services_block out) as [services|[]]; [|reflexivity].
  apply for_each_load_line_x.
Qed.

Lemma load_labels_x_answered tool target lbls data j :
  Forall (answered tool target) lbls ->
  load_labels_x tool target lbls data j
  = (Ok_x (data ++ rows_of (answers tool) target lbls),
     cache_after (answers tool) target lbls j).
Proof.
  revert data j; induction lbls as [|l lbls IH]; intros data j H.
  - cbn. rewrite app_nil_r. reflexivity.
  - inversion_clear H as [|? ? [d Hd] Hl]. cbn [load_labels_x]. rewrite Hd.
    rewrite IH by assumption.
    unfold rows_of, cache_after, details_of, answers.
    cbn [omap list_omap foldl]. rewrite Hd. cbn [default from_option].
    unfold id.
    destruct (parse_details l d); cbn [option_list];
      rewrite <- ?app_assoc, ?app_nil_r; reflexivity.
Qed.

Lemma load_labels_x_Ok tool target lbls data j rows j' :
  load_labels_x tool target lbls data j = (Ok_x rows, j') ->
  Forall (answered tool target) lbls.
Proof.
  revert data j; induction lbls as [|l lbls IH]; intros data j H;
    [constructor|].
  cbn [load_labels_x] in H.
  destruct (tool (print_job target l)) as [d|] eqn:Hd; [|discriminate].
  constructor; [unfold answered; rewrite Hd; eauto | eapply IH, H].
Qed.

Lemma load_labels_x_Raise tool target lbls data j e j' :
  load_labels_x tool target lbls data j = (Raise_x e, j') ->
  e = ExecError_x
  /\ exists pre l post,
       lbls = pre ++ l :: post
       /\ Forall (answered tool target) pre
       /\ tool (print_job target l) = None
       /\ j' = cache_after (answers tool) target pre j.
Proof.
  revert data j; induction lbls as [|l lbls IH]; intros data j H;
    [discriminate|].
  cbn [load_labels_x] in H.
  destruct (tool (print_job target l)) as [d|] eqn:Hd.
  - destruct (IH _ _ H) as (He & pre & l' & post & -> & Hpre & Hl' & ->).
    split; [exact He|]. exists (l :: pre), l', post.
    split; [reflexivity|].
    split; [constructor; [unfold answered; rewrite Hd; eauto | exact Hpre]|].
    split; [exact Hl'|].
    unfold cache_after, details_of, answers. cbn [foldl]. rewrite Hd.
    reflexivity.
  - injection H as <- <-. split; [reflexivity|].
    exists [], l, lbls. auto.
Qed.

Lemma cache_after_keeps exec target lbls j l :
  is_Some (j !! l) -> is_Some (cache_after exec target lbls j !! l).
Proof.
  intros H. rewrite cache_after_lookup. destruct (decide _); eauto.
Qed.

Lemma load_labels_x_keeps tool target lbls data j r j' l :
  load_labels_x tool target lbls data j = (r, j') ->
  is_Some (j !! l) -> is_Some (j' !! l).
Proof.
  intros H Hl. destruct r as [rows|e].
  - pose proof (load_labels_x_Ok _ _ _ _ _ _ _ H) as Hall.
    rewrite (load_labels_x_answered _ _ _ data j Hall) in H.
    injection H as _ <-. apply cache_after_keeps, Hl.
  - destruct (load_labels_x_Raise _ _ _ _ _ _ _ H)
      as (_ & pre & _ & _ & _ & _ & _ & ->).
    apply cache_after_keeps, Hl.
Qed.

(** A load that returns rows on a tool that can fail is the load on the
    answers of that tool. *)
Lemma load_x_Ok tool uid idx j rows j' :
  load_data_launchctl_x tool uid idx j = (Ok_x rows, j') ->
  load_data_launchctl (answers tool) uid idx j = (Ok rows, j').
Proof.
  rewrite load_data_launchctl_x_eq, load_data_launchctl_eq.
  destruct (py_index LAUNCHD_DOMAINS idx) as [name|e]; [|discriminate].
  cbv zeta. unfold answers at 1.
  destruct (tool ["launchctl"; "print"; target_of uid name]) as [out|];
    [|discriminate].
  cbn [default from_option]. unfold id.
  destruct (services_block out) as [services|e]; [|discriminate].
  intros H. pose proof (load_labels_x_Ok _ _ _ _ _ _ _ H) as Hall.
  rewrite (load_labels_x_answered _ _ _ [] j Hall) in H.
  injection H as <- <-. reflexivity.
Qed.

Lemma load_x_keeps tool uid idx j r j' l :
  load_data_launchctl_x tool uid idx j = (r, j') ->
  is_Some (j !! l) -> is_Some (j' !! l).
Proof.
  rewrite load_data_launchctl_x_eq.
  destruct (py_index LAUNCHD_DOMAINS idx) as [name|e]; [|congruence].
  cbv zeta.
  destruct (tool ["launchctl"; "print"; target_of uid name]) as [out|];
    [|congruence].
  destruct (services_block out) as [services|e]; [|congruence].
  apply load_labels_x_keeps.
Qed.

Lemma load_x_IndexError tool uid idx j j' :
  load_data_launchctl_x tool uid idx j = (Raise_x IndexError_x, j') -> j' = j.
Proof.
  rewrite load_data_launchctl_x_eq.
  destruct (py_index LAUNCHD_DOMAINS idx) as [name|e]; [|congruence].
  cbv zeta.
  destruct (tool ["launchctl"; "print"; target_of uid name]) as [out|];
    [|congruence].
  destruct (services_block out) as [services|e]; [|congruence].
  intros H. apply load_labels_x_Raise in H as [[=] _].
Qed.

(** On a tool that never fails the two loads agree. *)
Lemma load_x_reliable exec uid idx j :
  load_data_launchctl_x (reliable exec) uid idx j
  = lift_M (load_data_launchctl exec uid idx) j.
Proof.
  rewrite load_data_launchctl_x_eq. unfold lift_M.
  rewrite load_data_launchctl_eq.
  destruct (py_index LAUNCHD_DOMAINS idx) as [name|[]]; [|reflexivity].
  cbv zeta. unfold reliable at 1.
  destruct (services_block _) as [services|[]]; [|reflexivity].
  rewrite load_labels_x_answered.
  - reflexivity.
  - apply Forall_forall. intros l _. unfold answered, reliable. eauto.
Qed.

(** X1: on a tool that can fail, the load returns rows exactly when the
    domain index is one Python accepts on the three domains, the tool
    answers the query for that domain with an output that has the
    services marker, and it answers the query for every listed label.
    The rows and the cache are then those of the load on the tool's
    answers.  An [IndexError] leaves the cache as it was; a failing query
    can leave it with the detail texts stored before; in no case does the
    cache lose an entry. *)
Theorem load_x_succeeds_iff tool uid idx j :
  ((exists rows j', load_data_launchctl_x tool uid idx j = (Ok_x rows, j'))
   <-> -3 <= idx < 3
       /\ exists name out services,
            py_index LAUNCHD_DOMAINS idx = Ok name
            /\ tool ["launchctl"; "print"; target_of uid name] = Some out
            /\ contains SERVICES_OPEN out = true
            /\ services_block out = Ok services
            /\ Forall (answered tool (target_of uid name))
                 (listed_labels services))
  /\ (forall rows j',
        load_data_launchctl_x tool uid idx j = (Ok_x rows, j') ->
        load_data_launchctl (answers tool) uid idx j = (Ok rows, j'))
  /\ (forall j',
        load_data_launchctl_x tool uid idx j = (Raise_x IndexError_x, j') ->
        j' = j)
  /\ (forall r j' l,
        load_data_launchctl_x tool uid idx j = (r, j') ->
        is_Some (j !! l) -> is_Some (j' !! l)).
Proof.
  split; [|split; [|split]].
  - rewrite load_data_launchctl_x_eq.
    pose proof (py_index_Ok_iff LAUNCHD_DOMAINS idx) as Hidx.
    cbn [length] in Hidx.
    destruct (py_index LAUNCHD_DOMAINS idx) as [name|e] eqn:Hname.
    2:{ split; [intros (? & ? & [=])|]. intros (_ & ? & ? & ? & [=] & _). }
    cbv zeta.
    destruct (tool ["launchctl"; "print"; target_of uid name]) as [out|]
      eqn:Hout.
    2:{ split; [intros (? & ? & [=])|].
        intros (_ & ? & ? & ? & [= <-] & Ht & _). congruence. }
    destruct (contains SERVICES_OPEN out) eqn:Hmark.
    + destruct (services_block_present _ Hmark) as [services Hs]. rewrite Hs.
      split.
      * intros (rows & j' & H). split; [apply Hidx; eauto|].
        exists name, out, services. repeat split; try reflexivity; try assumption.
        eapply load_labels_x_Ok, H.
      * intros (_ & name' & out' & services' & [= <-] & Ht & _ & Hs' & Hall).
        rewrite Hout in Ht. injection Ht as <-.
        rewrite Hs in Hs'. injection Hs' as <-.
        rewrite (load_labels_x_answered _ _ _ [] j Hall). eauto.
    + rewrite (services_block_absent _ Hmark).
      split; [intros (? & ? & [=])|].
      intros (_ & name' & out' & services' & [= <-] & Ht & Hm & _).
      congruence.
  - apply load_x_Ok.
  - intros j'. apply load_x_IndexError.
  - intros r j' l. apply load_x_keeps.
Qed.

Lemma new_window_ok d j :
  window_ok (new_window d j)
  /\ jobs (new_window d j) = j
  /\ view (new_window d j) = d
  /\ snapshot (new_window d j) = d.
Proof.
  unfold new_window, alloc. cbv zeta.
  set (l1 := fresh (dom (∅ : gmap nat (list Job)))).
  set (h1 := <[l1 := d]> (∅ : gmap nat (list Job))).
  assert (fresh (dom h1) <> l1) as Hne.
  { intros Heq. apply (is_fresh (dom h1)). rewrite Heq.
    apply elem_of_dom. unfold h1. rewrite lookup_insert_eq. eauto. }
  split; [split; [reflexivity | cbn; congruence]|].
  split; [reflexivity|]. unfold view, snapshot. cbn.
  fold l1. fold h1. split.
  - rewrite deref_insert_ne by assumption.
    rewrite deref_insert_ne by assumption. apply deref_insert_eq.
  - rewrite deref_insert_eq.
    rewrite deref_insert_ne by assumption. apply deref_insert_eq.
Qed.

Lemma column_0 d : column 0 d = label d.
Proof. reflexivity. Qed.

(** The window at the end of [__init__]: the snapshot keeps the order of
    the listing, the view is sorted. *)
Lemma start_window tool uid idx rows j :
  load_data_launchctl_x tool uid idx ∅ = (Ok_x rows, j) ->
  exists w,
    MainWindow_start tool uid idx = Ok_x w
    /\ window_ok w
    /\ jobs w = j
    /\ snapshot w = rows
    /\ view w = snd <$> arrange true (keyed label <$> rows).
Proof.
  intros Hload.
  destruct (new_window_ok rows j) as (Hok & Hj & Hv & Hs).
  exists (snd (handle (SetSort 0 DescendingOrder) (new_window rows j))).
  split; [|split; [|split; [|split]]].
  - unfold MainWindow_start. rewrite Hload. cbn [handle].
    destruct (sort_view_valid 0 DescendingOrder (new_window rows j))
      as [Hfst _]; [lia|].
    destruct (CustomTableModel.sort 0 DescendingOrder (new_window rows j))
      as [[[]|e] w']; [reflexivity | discriminate].
  - apply handle_window_ok, Hok.
  - destruct (handle_refs (SetSort 0 DescendingOrder) (new_window rows j))
      as (-> & _). exact Hj.
  - rewrite handle_snapshot by assumption. exact Hs.
  - cbn [handle].
    destruct (sort_view_valid 0 DescendingOrder (new_window rows j))
      as [_ ->]; [lia|].
    rewrite Hv. reflexivity.
Qed.

(** X21: [__init__] lets out the exception of its load, of a failing
    query as well as an [IndexError].  When the load returns rows, the
    window has them as its snapshot, in the order of the listing, and
    shows them sorted by label in descending order, as the first sort
    leaves them; the cache is the one the load built from the empty
    cache, and the table model shares the list object [self.data]. *)
Theorem start_outcome tool uid idx :
  (forall e j,
     load_data_launchctl_x tool uid idx ∅ = (Raise_x e, j) ->
     MainWindow_start tool uid idx = Raise_x e)
  /\ (forall rows j,
        load_data_launchctl_x tool uid idx ∅ = (Ok_x rows, j) ->
        exists w,
          MainWindow_start tool uid idx = Ok_x w
          /\ window_ok w
          /\ jobs w = j
          /\ snapshot w = rows
          /\ view w ≡ₚ rows
          /\ Sorted (fun a b => String.leb (label b) (label a) = true) (view w)
          /\ view w = snd <$> arrange true (keyed label <$> rows)).
Proof.
  split.
  - intros e j H. unfold MainWindow_start. rewrite H. reflexivity.
  - intros rows j H.
    destruct (start_window tool uid idx rows j H)
      as (w & Hw & Hok & Hj & Hs & Hv).
    exists w. repeat (split; [assumption|]). rewrite Hv.
    split; [|split; [|reflexivity]].
    + rewrite arrange_perm, <- list_fmap_compose.
      rewrite (list_fmap_ext _ id rows) by reflexivity.
      rewrite list_fmap_id. reflexivity.
    + apply (Sorted_keyed label (fun k1 k2 => String.leb k2 k1 = true)).
      rewrite arrange_keyed. cbn [arrange].
      pose proof (stable_sort_sorted (rev (keyed label <$> rows))) as Hsorted.
      apply Sorted_reverse in Hsorted. unfold reverse in Hsorted.
      rewrite <- rev_alt in Hsorted. exact Hsorted.
Qed.

Lemma initialize_data_x_Ok tool uid idx w rows j :
  load_data_launchctl_x tool uid idx (jobs w) = (Ok_x rows, j) ->
  initialize_data_x tool uid idx w
  = (Ok_x tt, snd (initialize_data (answers tool) uid idx w)).
Proof.
  intros Hload. pose proof (load_x_Ok _ _ _ _ _ _ Hload) as Hload'.
  unfold initialize_data_x, try_except_x, mbind, Mx_bind, on_jobs_x, lift_M.
  unfold initialize_data, try_except, mbind, M_bind, on_jobs.
  rewrite Hload, Hload'. reflexivity.
Qed.

Lemma initialize_data_x_Raise tool uid idx w e j :
  load_data_launchctl_x tool uid idx (jobs w) = (Raise_x e, j) ->
  initialize_data_x tool uid idx w
  = (Ok_x tt, mkWindow j (lists w) (data w) (data_all w) (arraydata w)).
Proof.
  intros Hload.
  unfold initialize_data_x, try_except_x, mbind, Mx_bind, on_jobs_x.
  rewrite Hload. reflexivity.
Qed.

(** X5: a refresh lets no exception out, of a failing query no more than
    an [IndexError], and its cache is the one its load leaves, in which
    no entry is lost.  When the load returned rows they are the snapshot
    and the view.  When the load raised, the list objects are as they
    were, so the snapshot and the view are, while the cache holds the
    detail texts stored before the failure; after an [IndexError] the
    whole window is as it was. *)
Theorem initialize_data_x_outcome tool uid idx w :
  window_ok w ->
  fst (initialize_data_x tool uid idx w) = Ok_x tt
  /\ window_ok (snd (initialize_data_x tool uid idx w))
  /\ jobs (snd (initialize_data_x tool uid idx w))
     = snd (load_data_launchctl_x tool uid idx (jobs w))
  /\ (forall l, is_Some (jobs w !! l) ->
        is_Some (jobs (snd (initialize_data_x tool uid idx w)) !! l))
  /\ ((exists rows,
         fst (load_data_launchctl_x tool uid idx (jobs w)) = Ok_x rows
         /\ snapshot (snd (initialize_data_x tool uid idx w)) = rows
         /\ view (snd (initialize_data_x tool uid idx w)) = rows)
      \/ (exists e,
            fst (load_data_launchctl_x tool uid idx (jobs w)) = Raise_x e
            /\ lists (snd (initialize_data_x tool uid idx w)) = lists w
            /\ snapshot (snd (initialize_data_x tool uid idx w)) = snapshot w
            /\ view (snd (initialize_data_x tool uid idx w)) = view w
            /\ (e = IndexError_x -> snd (initialize_data_x tool uid idx w) = w))).
Proof.
  intros Hok.
  destruct (load_data_launchctl_x tool uid idx (jobs w)) as [[rows|e] j]
    eqn:Hload.
  - rewrite (initialize_data_x_Ok _ _ _ _ _ _ Hload). cbn [fst snd].
    destruct (initialize_data_ok (answers tool) uid idx w rows j Hok
                (load_x_Ok _ _ _ _ _ _ Hload)) as (_ & Hok' & Hj & Hs & Hv).
    split; [reflexivity|]. split; [exact Hok'|]. split; [exact Hj|].
    split; [|left; eauto].
    intros l. rewrite Hj. eapply load_x_keeps, Hload.
  - rewrite (initialize_data_x_Raise _ _ _ _ _ _ Hload). cbn [fst snd jobs].
    split; [reflexivity|]. split; [exact Hok|]. split; [reflexivity|].
    split; [intros l; eapply load_x_keeps, Hload|].
    right. exists e. repeat (split; [reflexivity|]).
    intros ->. rewrite (load_x_IndexError _ _ _ _ _ Hload).
    destruct w; reflexivity.
Qed.

Lemma start_load tool uid idx w :
  MainWindow_start tool uid idx = Ok_x w ->
  exists rows,
    load_data_launchctl_x tool uid idx ∅ = (Ok_x rows, jobs w)
    /\ window_ok w
    /\ snapshot w = rows
    /\ view w = snd <$> arrange true (keyed label <$> rows).
Proof.
  intros Hw.
  destruct (load_data_launchctl_x tool uid idx ∅) as [[rows|e] j] eqn:Hload.
  - destruct (start_window tool uid idx rows j Hload)
      as (w' & Hw' & Hok & Hj & Hs & Hv).
    rewrite Hw in Hw'. injection Hw' as <-. exists rows. rewrite Hj. auto.
  - unfold MainWindow_start in Hw. rewrite Hload in Hw. discriminate.
Qed.

Lemma arrange_keyed_perm {A : Type} (key : A -> string) reverse (rows : list A) :
  snd <$> arrange reverse (keyed key <$> rows) ≡ₚ rows.
Proof.
  rewrite arrange_perm, <- list_fmap_compose.
  rewrite (list_fmap_ext _ id rows) by reflexivity.
  rewrite list_fmap_id. reflexivity.
Qed.

Lemma load_x_covers tool uid idx j rows j' :
  load_data_launchctl_x tool uid idx j = (Ok_x rows, j') ->
  forall r, r ∈ rows ->
    exists d, j' !! label r = Some d /\ parse_details (label r) d = Some r.
Proof. intros H%load_x_Ok. eapply load_rows_sound, H. Qed.

(** What holds in every window of a session, whatever failed: the
    aliasing, the rows shown are rows of the snapshot, and every row of
    the snapshot has a detail text in the cache. *)
Lemma session_inv w :
  session w ->
  window_ok w
  /\ view w ⊆+ snapshot w
  /\ (forall r, r ∈ snapshot w -> is_Some (jobs w !! label r)).
Proof.
  induction 1 as [tool uid idx w Hstart | e w _ (Hok & Hview & Hcache)].
  - destruct (start_load _ _ _ _ Hstart) as (rows & Hload & Hok & Hs & Hv).
    split; [exact Hok|]. split.
    + rewrite Hv, Hs, arrange_keyed_perm. reflexivity.
    + rewrite Hs. intros r Hr.
      destruct (load_x_covers _ _ _ _ _ _ Hload r Hr) as (d & -> & _). eauto.
  - destruct e as [e|tool uid idx]; cbn [session_step].
    + destruct (handle_refs e w) as (Hj & _ & _ & _).
      pose proof (handle_snapshot e w Hok) as Hs.
      split; [apply handle_window_ok, Hok|]. split.
      * rewrite Hs. destruct e as [text|ncol order]; cbn [handle].
        -- rewrite on_search_changed_view by assumption.
           destruct (truthy text); [|reflexivity].
           apply sublist_submseteq, List_filter_sublist.
        -- rewrite sort_view_perm. exact Hview.
      * rewrite Hs, Hj. exact Hcache.
    + destruct (load_data_launchctl_x tool uid idx (jobs w)) as [[rows|e] j]
        eqn:Hload.
      * rewrite (initialize_data_x_Ok _ _ _ _ _ _ Hload). cbn [snd].
        destruct (initialize_data_ok (answers tool) uid idx w rows j Hok
                    (load_x_Ok _ _ _ _ _ _ Hload)) as (_ & Hok' & Hj & Hs & Hv).
        split; [exact Hok'|]. split; [rewrite Hv, Hs; reflexivity|].
        rewrite Hs, Hj. intros r Hr.
        destruct (load_x_covers _ _ _ _ _ _ Hload r Hr) as (d & -> & _). eauto.
      * rewrite (initialize_data_x_Raise _ _ _ _ _ _ Hload). cbn [snd].
        split; [exact Hok|]. split; [exact Hview|].
        intros r Hr. cbn [jobs]. eapply load_x_keeps; [exact Hload|].
        apply Hcache, Hr.
Qed.

Lemma settled_inv w : settled w -> session w /\ cache_sound w.
Proof.
  induction 1 as [tool uid idx w Hstart | e w _ [Hsess Hcache]
                 | tool uid idx w rows Hsess Hrows
                 | tool uid idx w e _ [Hsess Hcache] Hload].
  - split; [eapply session_start, Hstart|].
    destruct (start_load _ _ _ _ Hstart) as (rows & Hload & _ & Hs & _).
    unfold cache_sound. rewrite Hs. eapply load_x_covers, Hload.
  - split; [apply (session_next (TableAction e)), Hsess|].
    destruct (session_inv w Hsess) as (Hok & _).
    destruct (handle_refs e w) as (Hj & _).
    unfold cache_sound. rewrite Hj, (handle_snapshot e w Hok). exact Hcache.
  - split; [apply (session_next (Refresh tool uid idx)), Hsess|].
    destruct (session_inv w Hsess) as (Hok & _).
    destruct (load_data_launchctl_x tool uid idx (jobs w)) as [r j] eqn:Hload.
    cbn [fst] in Hrows. subst r.
    rewrite (initialize_data_x_Ok _ _ _ _ _ _ Hload).  cbn [snd].
    destruct (initialize_data_ok (answers tool) uid idx w rows j Hok
                (load_x_Ok _ _ _ _ _ _ Hload)) as (_ & _ & Hj & Hs & _).
    unfold cache_sound. rewrite Hs, Hj. eapply load_x_covers, Hload.
  - rewrite (initialize_data_x_Raise _ _ _ _ _ _ Hload). cbn [snd].
    assert (mkWindow (jobs w) (lists w) (data w) (data_all w) (arraydata w) = w)
      as -> by (destruct w; reflexivity).
    auto.
Qed.

(** X10: in every window of a session, whatever queries failed in it,
    selecting a row that is shown puts a cached detail text in the detail
    pane, never the text [None], and the status message is the path of
    the row.  The text is the one a load stored for the label of the
    row; where no load has failed since the rows were loaded, its path
    and state lines give exactly the selected row. *)
Theorem session_selected_row_detail w i r :
  session w ->
  py_index (view w) i = Ok r ->
  exists d,
    onListItemSelect i w = Ok (detail_pane (Some d), path r)
    /\ jobs w !! label r = Some d
    /\ (settled w -> parse_details (label r) d = Some r).
Proof.
  intros H Hi. destruct (session_inv w H) as ([Ha _] & Hview & Hcache).
  assert (r ∈ snapshot w) as Hr.
  { eapply elem_of_submseteq; [|exact Hview]. eapply py_index_elem_of, Hi. }
  destruct (Hcache r Hr) as [d Hd]. exists d.
  split; [|split; [exact Hd|]].
  - unfold onListItemSelect. unfold view in Hi.
    rewrite <- Ha, Hi. cbn [mbind result_bind]. rewrite Hd. reflexivity.
  - intros [_ Hsound]%settled_inv.
    destruct (Hsound r Hr) as (d' & Hd' & Hp). congruence.
Qed.

(** The fixtures are what [MainWindow_start] gives: the snapshot of
    [start_three] is in listing order, its view in descending order of
    the labels. *)
Example start_one_ex : MainWindow_start (reliable tool_one) 501 2 = Ok_x start_one.
Proof. vm_compute. reflexivity. Qed.

Example start_three_ex :
  MainWindow_start (reliable tool_three) 501 2 = Ok_x start_three
  /\ snapshot start_three = rows_three
  /\ view start_three
     = [mkJob "com.d.off" "/Library/d.plist" "not running";
        mkJob "com.c.web" "/System/c.plist" "running";
        mkJob "com.a.one" "/Library/a.plist" "running"].
Proof. repeat split; vm_compute; reflexivity. Qed.

(** A query that fails in the loop: the load raises with the detail text
    of the label before it in the cache, and at start-up no window is
    built. *)
Example load_failing_query :
  load_data_launchctl_x tool_failing 501 2 ∅
  = (Raise_x ExecError_x,
     <["com.a.one" := detail_text "/Library/a.plist" "stopped"]> ∅)
  /\ MainWindow_start tool_failing 501 2 = Raise_x ExecError_x.
Proof. split; vm_compute; reflexivity. Qed.

(** A refresh whose load fails in the loop keeps the rows and changes the
    cache: the detail text of the row shown then gives another path and
    another state than the row has. *)
Example failed_refresh_stale :
  view window_stale = [one]
  /\ snapshot window_stale = [one]
  /\ jobs start_one !! "com.a.one" = Some scenario_detail
  /\ jobs window_stale !! "com.a.one"
     = Some (detail_text "/Library/a.plist" "stopped")
  /\ parse_details "com.a.one" (detail_text "/Library/a.plist" "stopped")
     = Some (mkJob "com.a.one" "/Library/a.plist" "stopped")
  /\ ~ cache_sound window_stale.
Proof.
  repeat split; try (vm_compute; reflexivity).
  intros H. destruct (H one) as (d & Hd & Hp).
  - vm_compute. left.
  - vm_compute in Hd. injection Hd as <-. vm_compute in Hp. discriminate.
Qed.

Lemma load_x_succeeds_iff_witness :
  exists rows j',
    load_data_launchctl_x (reliable tool_three) 501 2 ∅ = (Ok_x rows, j').
Proof.
  apply (proj1 (load_x_succeeds_iff (reliable tool_three) 501 2 ∅)).
  split; [lia|].
  exists "GUI", (tool_three ["launchctl"; "print"; target_of 501 "GUI"]).
  eexists. split; [reflexivity|]. split; [reflexivity|].
  split; [vm_compute; reflexivity|]. split; [vm_compute; reflexivity|].
  apply Forall_forall. intros l _. unfold answered, reliable. eauto.
Defined.

Lemma start_outcome_witness :
  load_data_launchctl_x (reliable tool_three) 501 2 ∅
  = (Ok_x rows_three, jobs window_three)
  /\ exists w,
       MainWindow_start (reliable tool_three) 501 2 = Ok_x w
       /\ window_ok w
       /\ jobs w = jobs window_three
       /\ snapshot w = rows_three
       /\ view w ≡ₚ rows_three
       /\ Sorted (fun a b => String.leb (label b) (label a) = true) (view w)
       /\ view w = snd <$> arrange true (keyed label <$> rows_three).
Proof.
  split; [vm_compute; reflexivity|].
  apply (proj2 (start_outcome (reliable tool_three) 501 2)).
  vm_compute. reflexivity.
Defined.

Lemma initialize_data_x_outcome_witness :
  fst (initialize_data_x tool_failing 501 2 start_one) = Ok_x tt
  /\ window_ok (snd (initialize_data_x tool_failing 501 2 start_one))
  /\ jobs (snd (initialize_data_x tool_failing 501 2 start_one))
     = snd (load_data_launchctl_x tool_failing 501 2 (jobs start_one))
  /\ (forall l, is_Some (jobs start_one !! l) ->
        is_Some (jobs (snd (initialize_data_x tool_failing 501 2 start_one)) !! l))
  /\ ((exists rows,
         fst (load_data_launchctl_x tool_failing 501 2 (jobs start_one)) = Ok_x rows
         /\ snapshot (snd (initialize_data_x tool_failing 501 2 start_one)) = rows
         /\ view (snd (initialize_data_x tool_failing 501 2 start_one)) = rows)
      \/ (exists e,
            fst (load_data_launchctl_x tool_failing 501 2 (jobs start_one)) = Raise_x e
            /\ lists (snd (initialize_data_x tool_failing 501 2 start_one))
               = lists start_one
            /\ snapshot (snd (initialize_data_x tool_failing 501 2 start_one))
               = snapshot start_one
            /\ view (snd (initialize_data_x tool_failing 501 2 start_one))
               = view start_one
            /\ (e = IndexError_x ->
                snd (initialize_data_x tool_failing 501 2 start_one) = start_one))).
Proof.
  apply (initialize_data_x_outcome tool_failing 501 2 start_one).
  split; [reflexivity | discriminate].
Defined.

(** The window at the end of [__init__] is one in which no load has
    failed. *)
Example start_three_settled : settled start_three.
Proof. apply (settled_start (reliable tool_three) 501 2). vm_compute. reflexivity. Qed.

Lemma session_selected_row_detail_witness :
  exists d,
    onListItemSelect 1 start_three
    = Ok (detail_pane (Some d), path (mkJob "com.c.web" "/System/c.plist" "running"))
    /\ jobs start_three !! label (mkJob "com.c.web" "/System/c.plist" "running")
       = Some d
    /\ (settled start_three ->
        parse_details (label (mkJob "com.c.web" "/System/c.plist" "running")) d
        = Some (mkJob "com.c.web" "/System/c.plist" "running")).
Proof.
  apply (session_selected_row_detail start_three 1).
  - apply (session_start (reliable tool_three) 501 2). vm_compute. reflexivity.
  - vm_compute. reflexivity.
Defined.

End FailingTool.
